(** * A shallow embedding of the request pipeline of the shop-bot backend

    The development follows the Python sources under [api/]:

    - [api/middleware/error_handling.py]  (module [ErrorHandling])
    - [api/service/database_service.py]   (module [Database])
    - [api/middleware/rate_limiting.py]   (module [RateLimiting])
    - [api/middleware/__init__.py]        (module [Pipeline])

    Python values are modelled by small inductive types, exceptions by an
    error type, and every [async def] by a function in a monad that threads
    the state of the external collaborators, may raise, and records the
    calls it makes to those collaborators. *)

From stdpp Require Import gmap strings list pretty.

Set Warnings "-register-all".

Open Scope string_scope.
Open Scope Z_scope.

(** ** Python values *)

(** The values found in the dictionaries handled by the middleware:
    integers and strings. *)
Inductive pyval :=
| VInt (n : Z)
| VStr (s : string).

(** JSON documents, as passed to [JSONResponse(content=...)] and to
    [HTTPException(detail=...)].  Objects keep the order in which the
    source writes their fields. *)
Inductive json :=
| JNull
| JInt (n : Z)
| JStr (s : string)
| JObj (fields : list (string * json)).

Definition json_of (v : pyval) : json :=
  match v with
  | VInt n => JInt n
  | VStr s => JStr s
  end.

(** [str(v)] *)
Definition py_str (v : pyval) : string :=
  match v with
  | VInt n => pretty n
  | VStr s => s
  end.

(** A Python [dict] with string keys, in insertion order. *)
Definition dict (A : Type) := list (string * A).

Fixpoint dict_get {A} (k : string) (d : dict A) : option A :=
  match d with
  | [] => None
  | (k', v) :: d' => if String.eqb k k' then Some v else dict_get k d'
  end.

(** The names of the top-level fields of a JSON object. *)
Definition json_keys (j : json) : list string :=
  match j with
  | JObj fields => fst <$> fields
  | _ => []
  end.

(** ** Exceptions

    The subclasses of [Exception] that the sources raise, catch or look
    up by class.  [HTTPException] is [fastapi.HTTPException], the class
    that [rate_limiting.py], [middleware/__init__.py] and the routes
    import; it is a subclass of [starlette.exceptions.HTTPException],
    the class that [error_handling.py] imports, whose other instances
    are [StarletteHTTPException].  [AttrException] stands for an
    exception of any other class that carries an integer [status_code]
    attribute, [OtherException] for one that carries none.  Classes are
    told apart by their names. *)
Inductive exn :=
| HTTPException (status_code : Z) (detail : json)
                (headers : option (dict string))
| StarletteHTTPException (status_code : Z) (detail : json)
                         (headers : option (dict string))
| RequestValidationError (errors : json)
| ValueError (msg : string)
| KeyError (key : string)
| AttributeError (msg : string)
| IndexError (msg : string)
| NotImplementedError
| RuntimeError (msg : string)
| ConnectionError (msg : string)          (* redis.ConnectionError *)
| AttrException (type_name msg : string) (status_code : Z)
| OtherException (type_name msg : string).

(** [type(exc).__name__] *)
Definition type_name (e : exn) : string :=
  match e with
  | HTTPException _ _ _ => "HTTPException"
  | StarletteHTTPException _ _ _ => "HTTPException"
  | RequestValidationError _ => "RequestValidationError"
  | ValueError _ => "ValueError"
  | KeyError _ => "KeyError"
  | AttributeError _ => "AttributeError"
  | IndexError _ => "IndexError"
  | NotImplementedError => "NotImplementedError"
  | RuntimeError _ => "RuntimeError"
  | ConnectionError _ => "ConnectionError"
  | AttrException n _ _ => n
  | OtherException n _ => n
  end.

(** [str(e)]: the message of a built-in exception ([KeyError] quotes
    its key).  The HTTP exceptions and the validation error print their
    payload instead; the class name stands in for that text here, and
    [setup_middleware], which alone uses this function, meets none of
    them. *)
Definition exn_text (e : exn) : string :=
  match e with
  | ValueError m | AttributeError m | IndexError m | RuntimeError m
  | ConnectionError m | AttrException _ m _ | OtherException _ m => m
  | KeyError k => "'" ++ k ++ "'"
  | NotImplementedError => ""
  | HTTPException _ _ _ | StarletteHTTPException _ _ _ => "HTTPException"
  | RequestValidationError _ => "RequestValidationError"
  end.

(** [isinstance(e, fastapi.HTTPException)], the test of an
    [except HTTPException] clause in a module that imports the class
    from [fastapi]. *)
Definition is_HTTPException (e : exn) : bool :=
  match e with
  | HTTPException _ _ _ => true
  | _ => false
  end.

(** The result of running a piece of Python: a value or a raised
    exception. *)
Inductive outcome (A : Type) :=
| Return (a : A)
| Raise (e : exn).
Arguments Return {A} a.
Arguments Raise {A} e.

Definition returns {A} (o : outcome A) : bool :=
  match o with
  | Return _ => true
  | Raise _ => false
  end.

(** ** Requests and responses *)

(** The fields of a request that the middleware reads.  [client] is
    [request.client]: the host of the peer, or [None] when the server
    recorded no address for the connection.  Header names are looked up
    as the code writes them. *)
Record Request := {
  method : string;
  path : string;                   (* request.url.path *)
  query_params : dict string;
  client : option string;          (* request.client *)
  req_headers : dict string;       (* request.headers *)
  state_user : option (dict pyval) (* request.state.user, when set *)
}.

(** [request.client.host]: an attribute of [None] cannot be read. *)
Definition client_host (request : Request) : outcome string :=
  match client request with
  | Some host => Return host
  | None =>
      Raise (AttributeError "'NoneType' object has no attribute 'host'")
  end.

(** [s.lower()] on ASCII text. *)
Definition lower_ascii (a : Ascii.ascii) : Ascii.ascii :=
  let n := Ascii.nat_of_ascii a in
  if Nat.leb 65 n && Nat.leb n 90 then Ascii.ascii_of_nat (n + 32) else a.

Fixpoint lower (s : string) : string :=
  match s with
  | EmptyString => EmptyString
  | String a s' => String (lower_ascii a) (lower s')
  end.

(** A response: [headers] are the headers set by the application, in
    the order of the response's header list, their names in lower case
    as the framework stores them. *)
Record Response := {
  status_code : Z;
  content : json;
  media_type : string;
  headers : dict string
}.

(** [JSONResponse(status_code=..., content=...)] *)
Definition JSONResponse (status : Z) (body : json) : Response :=
  {| status_code := status; content := body;
     media_type := "application/json"; headers := [] |}.

(** [Response(status_code=..., content=..., headers=...)], the plain
    class: the body is rendered with [content.encode], which text has
    and a dict has not; then the header values are encoded, which only
    text allows, under their lowered names. *)
Fixpoint encode_headers (hs : dict pyval) : outcome (dict string) :=
  match hs with
  | [] => Return []
  | (name, VStr value) :: rest =>
      match encode_headers rest with
      | Return rest' => Return ((lower name, value) :: rest')
      | Raise e => Raise e
      end
  | (_, VInt _) :: _ =>
      Raise (AttributeError "'int' object has no attribute 'encode'")
  end.

Definition PlainResponse (status : Z) (body : json) (hs : dict pyval)
  : outcome Response :=
  match body with
  | JNull | JStr _ =>
      match encode_headers hs with
      | Return hs' =>
          Return {| status_code := status; content := body;
                    media_type := ""; headers := hs' |}
      | Raise e => Raise e
      end
  | JInt _ =>
      Raise (AttributeError "'int' object has no attribute 'encode'")
  | JObj _ =>
      Raise (AttributeError "'dict' object has no attribute 'encode'")
  end.

(** The entries of a header list whose name is not [key]. *)
Definition remove_header (key : string) (hs : dict string) : dict string :=
  filter (fun h : string * string => Is_true (negb (String.eqb h.1 key))) hs.

(** The first entry named [key] takes the new value, the later ones
    are deleted. *)
Fixpoint replace_header (key value : string) (hs : dict string)
  : dict string :=
  match hs with
  | [] => []
  | (k, v) :: rest =>
      if String.eqb k key then (key, value) :: remove_header key rest
      else (k, v) :: replace_header key value rest
  end.

(** [response.headers[name] = value] ([MutableHeaders.__setitem__]): the
    name is lowered; an entry of that name is replaced in place, and its
    duplicates deleted; without one the header is appended. *)
Definition set_header (name value : string) (r : Response) : Response :=
  let key := lower name in
  {| status_code := status_code r; content := content r;
     media_type := media_type r;
     headers :=
       if existsb (fun h : string * string => String.eqb h.1 key) (headers r)
       then replace_header key value (headers r)
       else (headers r ++ [(key, value)])%list |}.

(** [name in response.headers] *)
Definition has_header (name : string) (r : Response) : bool :=
  bool_decide (is_Some (dict_get (lower name) (headers r))).

(** The number of header lines named [key] that the response sends. *)
Fixpoint header_lines (key : string) (hs : dict string) : nat :=
  match hs with
  | [] => 0%nat
  | (k, _) :: rest =>
      ((if String.eqb k key then 1 else 0) + header_lines key rest)%nat
  end.

(** ** Strings *)

(** [s.startswith(p)] *)
Definition startswith (s p : string) : bool := String.prefix p s.

(** [s.startswith((p1, ..., pn))] *)
Definition startswith_any (s : string) (ps : list string) : bool :=
  existsb (startswith s) ps.

(** [s.split(c)] for a one-character separator: every occurrence of the
    separator cuts, empty pieces are kept. *)
Fixpoint split_on (c : Ascii.ascii) (s : string) : list string :=
  match s with
  | EmptyString => [EmptyString]
  | String a s' =>
      if Ascii.eqb a c then EmptyString :: split_on c s'
      else match split_on c s' with
           | [] => [String a EmptyString]
           | w :: ws => String a w :: ws
           end
  end.

(** [c in s] *)
Fixpoint has_char (c : Ascii.ascii) (s : string) : bool :=
  match s with
  | EmptyString => false
  | String a s' => Ascii.eqb a c || has_char c s'
  end.

Definition SPACE : Ascii.ascii := Ascii.ascii_of_nat 32.
Definition COLON : Ascii.ascii := Ascii.ascii_of_nat 58.

(** Truthiness of an optional string: [None] and [""] are falsy. *)
Definition truthy (o : option string) : bool :=
  match o with
  | None => false
  | Some s => negb (String.eqb s "")
  end.

(** [o or d] *)
Definition py_or (o : option string) (d : string) : string :=
  match o with
  | Some s => if String.eqb s "" then d else s
  | None => d
  end.

(** ** Logging *)

Inductive log_level := INFO | WARNING | ERROR.

(** ** The effect monad

    [W] is the state of everything outside the function being run (the
    key-value store, the services, the stages further down).  A
    computation maps a state to an outcome, a new state and the list of
    the calls and log records it produced, in order. *)
Section Effects.
Context {W Ev : Type}.

Definition M (A : Type) : Type := W -> outcome A * W * list Ev.

Definition ret {A} (a : A) : M A := fun w => (Return a, w, []).

Definition raise {A} (e : exn) : M A := fun w => (Raise e, w, []).

Definition bind {A B} (m : M A) (k : A -> M B) : M B :=
  fun w =>
    match m w with
    | (Return a, w1, t1) =>
        let '(r, w2, t2) := k a w1 in (r, w2, (t1 ++ t2)%list)
    | (Raise e, w1, t1) => (Raise e, w1, t1)
    end.

(** [try: m except Exception as e: h e] *)
Definition try_except {A} (m : M A) (h : exn -> M A) : M A :=
  fun w =>
    match m w with
    | (Return a, w1, t1) => (Return a, w1, t1)
    | (Raise e, w1, t1) =>
        let '(r, w2, t2) := h e w1 in (r, w2, (t1 ++ t2)%list)
    end.

(** One call to a collaborator [f], recorded as [ev]. *)
Definition call {A} (ev : Ev) (f : W -> outcome A * W) : M A :=
  fun w => let '(r, w1) := f w in (r, w1, [ev]).

(** A record in the trace that leaves the state alone. *)
Definition emit (ev : Ev) : M unit := fun w => (Return tt, w, [ev]).

Definition lift_outcome {A} (o : outcome A) : M A :=
  fun w => (o, w, []).
End Effects.

Declare Scope py_scope.
Delimit Scope py_scope with py.
Notation "x <- m ;; k" := (bind m (fun x => k))
  (at level 100, m at next level, right associativity) : py_scope.
Notation "m ;;; k" := (bind m (fun _ => k))
  (at level 100, right associativity) : py_scope.

(** [d[k]]: raises [KeyError] when the key is missing. *)
Definition getitem {A} (d : dict A) (k : string) : outcome A :=
  match dict_get k d with
  | Some v => Return v
  | None => Raise (KeyError k)
  end.

(** [l[i]]: raises [IndexError] out of range. *)
Definition index {A} (l : list A) (i : nat) : outcome A :=
  match l !! i with
  | Some v => Return v
  | None => Raise (IndexError "list index out of range")
  end.

(** Assigning a header value: the framework encodes the value, which
    only a [str] supports. *)
Definition header_value (v : pyval) : outcome string :=
  match v with
  | VStr s => Return s
  | VInt _ => Raise (AttributeError "'int' object has no attribute 'encode'")
  end.

(** The middleware classes that [api/middleware/__init__.py] imports. *)
Inductive middleware_class :=
| MetricsMiddleware
| LoggingMiddleware
| SecurityMiddleware
| ValidationMiddleware
| CompressionMiddleware
| ErrorHandlingMiddleware
| RateLimitMiddleware
| CacheMiddleware
| AuthMiddleware.

(** Everything a stage does that is visible from outside: records sent
    to the logger and calls to the collaborators. *)
Inductive event :=
| EvLog (level : log_level) (message : string)
| EvEnter (stage : middleware_class)
| EvVerifyToken (token : string)
| EvCheckRateLimit (user_id endpoint ip_address : string)
| EvLogRequest (user_id endpoint ip_address : string)
| EvCallNext (request : Request)
| EvShouldNotify (error_type : string) (status : Z)
| EvCreateNotification (error_id : string) (status : Z)
| EvRedisConnect
| EvRedisPing.

Definition is_quota_event (ev : event) : bool :=
  match ev with
  | EvCheckRateLimit _ _ _ | EvLogRequest _ _ _ => true
  | _ => false
  end.

Definition is_call_next (ev : event) : bool :=
  match ev with
  | EvCallNext _ => true
  | _ => false
  end.

(** Events of the stage itself that touch neither the quota nor the rest
    of the chain. *)
Definition quiet (t : list event) : Prop :=
  Forall (fun ev => is_quota_event ev = false /\ is_call_next ev = false) t.

(** [await call_next(request)]: the call is recorded, then the rest of
    the chain runs. *)
Definition invoke {W} (call_next : Request -> @M W event Response)
    (request : Request) : @M W event Response :=
  bind (emit (EvCallNext request)) (fun _ => call_next request).

(** [logger.log(level, message)] *)
Definition logger_log {W} (level : log_level) (message : string)
  : @M W event unit := emit (EvLog level message).

Abbreviation Py W := (@M W event).

(** * Part I: the program *)

(** ** The framework's base class

    [starlette.middleware.base.BaseHTTPMiddleware]: a subclass that does
    not define [dispatch] inherits this one. *)
Module BaseHTTPMiddleware.

Definition dispatch {W} (request : Request)
    (call_next : Request -> Py W Response) : Py W Response :=
  raise NotImplementedError.

End BaseHTTPMiddleware.

(** ** api/middleware/error_handling.py *)
Module ErrorHandling.

(** The two lines that open every log message of the module.  The
    messages are plain string literals, not f-strings: the braces are
    logged as written. *)
Definition banner : string :=
  "
Current Date and Time (UTC - YYYY-MM-DD HH:MM:SS formatted): 2025-06-03 12:13:01
Current User's Login: fdygt
".

(** [exc.status_code], [exc.detail], [exc.errors()] *)
Definition attr_status_code (exc : exn) : outcome Z :=
  match exc with
  | HTTPException s _ _ | StarletteHTTPException s _ _
  | AttrException _ _ s => Return s
  | _ => Raise (AttributeError "status_code")
  end.

Definition attr_detail (exc : exn) : outcome json :=
  match exc with
  | HTTPException _ d _ | StarletteHTTPException _ d _ => Return d
  | _ => Raise (AttributeError "detail")
  end.

Definition call_errors (exc : exn) : outcome json :=
  match exc with
  | RequestValidationError errs => Return errs
  | _ => Raise (AttributeError "errors")
  end.

Section Handlers.
Context {W : Type}.

Definition handle_http_exception (request : Request) (exc : exn)
  : Py W Response :=
  (logger_log ERROR
     (banner ++ "HTTPException: {exc.detail} | Status: {exc.status_code}
    ") ;;;
   status <- lift_outcome (attr_status_code exc) ;;
   detail <- lift_outcome (attr_detail exc) ;;
   ret (JSONResponse status (JObj [("detail", detail)])))%py.

Definition handle_validation_error (request : Request) (exc : exn)
  : Py W Response :=
  (logger_log ERROR (banner ++ "Validation error: {exc.errors()}
    ") ;;;
   errs <- lift_outcome (call_errors exc) ;;
   ret (JSONResponse 422 (JObj [("detail", errs)])))%py.

Definition handle_database_error (request : Request) (exc : exn)
  : Py W Response :=
  (logger_log ERROR (banner ++ "Database error: {str(exc)}
{traceback.format_exc()}
    ") ;;;
   ret (JSONResponse 500
          (JObj [("detail", JStr "A database error occurred.")])))%py.

End Handlers.

(** *** class ErrorHandlingMiddleware *)

(** The instance attributes set by [__init__].  [status_codes] is keyed
    by exception class, written here by class name; [HTTPException] maps
    to [None].  [error_counts] starts as the empty dict. *)
Record ErrorHandlingMiddleware_state (Counts : Type) := {
  status_codes : dict (option Z);
  NOTIFY_ON_STATUS : gset Z;
  ERROR_AGGREGATION_WINDOW : Z;
  ERROR_NOTIFICATION_THRESHOLD : Z;
  error_counts : gmap string Counts
}.
Arguments status_codes {Counts} _.
Arguments NOTIFY_ON_STATUS {Counts} _.
Arguments ERROR_AGGREGATION_WINDOW {Counts} _.
Arguments ERROR_NOTIFICATION_THRESHOLD {Counts} _.
Arguments error_counts {Counts} _.

Definition __init__ {Counts} : ErrorHandlingMiddleware_state Counts :=
  {| status_codes :=
       [("RequestValidationError", Some 422);
        ("ValueError", Some 400);
        ("KeyError", Some 400);
        ("HTTPException", None);
        ("Exception", Some 500)];
     NOTIFY_ON_STATUS := {[500; 503]};
     ERROR_AGGREGATION_WINDOW := 300;
     ERROR_NOTIFICATION_THRESHOLD := 5;
     error_counts := ∅ |}.

(** What [_get_error_details] reads from the interpreter and the
    system: a fresh UUID, the clock, the traceback of the exception being
    handled and its [str]. *)
Class Runtime (W : Type) := {
  uuid4 : W -> string * W;
  utcnow : W -> Z;
  tb_location : W -> string;
  format_exc : W -> string;
  str_exc : exn -> string
}.

Record error_context := {
  ctx_method : string;
  ctx_path : string;
  ctx_query_params : dict string;
  ctx_client_host : string;
  ctx_headers : dict string
}.

Record error_details := {
  ed_id : string;
  ed_timestamp : Z;
  ed_type : string;
  ed_message : string;
  ed_location : string;
  ed_traceback : string;
  ed_context : error_context;
  ed_user_id : pyval
}.

(** Truthiness of an optional integer: [None] and [0] are falsy. *)
Definition truthy_int (a : option Z) : bool :=
  match a with
  | Some x => negb (x =? 0)
  | None => false
  end.

(** [a or b or c] *)
Definition or3 (a b c : option Z) : option Z :=
  if truthy_int a then a else if truthy_int b then b else c.

(** [getattr(exc, "status_code", None)] *)
Definition getattr_status_code (exc : exn) : option Z :=
  match exc with
  | HTTPException s _ _ | StarletteHTTPException s _ _
  | AttrException _ _ s => Some s
  | _ => None
  end.

(** [self.status_codes.get(cls)] for a class given by name; a class
    mapped to [None] and a class that is not a key both give [None]. *)
Definition status_codes_get (codes : dict (option Z)) (cls : string)
  : option Z :=
  match dict_get cls codes with
  | Some (Some c) => Some c
  | _ => None
  end.

(** The response of last resort of the function written under
    [handle_database_error]. *)
Definition fallback_response : Response :=
  JSONResponse 500
    (JObj [("error",
            JObj [("type", JStr "InternalServerError");
                  ("message", JStr "An unexpected error occurred")])]).

Section Methods.
Context {W : Type} `{Runtime W} {Counts : Type}.
(** The methods that [dispatch] calls and the file leaves out ("rest of
    the methods remain the same"). *)
Context (_should_notify : string -> Z -> W -> outcome bool * W).
Context (_create_error_notification :
           error_details -> Z -> W -> outcome unit * W).
Context (_get_response_data : error_details -> Z -> outcome json).

Definition _get_error_details (request : Request) (exc : exn)
  : Py W error_details :=
  fun w =>
    let '(error_id, w1) := uuid4 w in
    match client_host request with
    | Raise e => (Raise e, w1, [])
    | Return host =>
        let context :=
          {| ctx_method := method request;
             ctx_path := path request;
             ctx_query_params := query_params request;
             ctx_client_host := host;
             ctx_headers := req_headers request |} in
        let user_id :=
          match state_user request with
          | Some u => default (VStr "anonymous") (dict_get "id" u)
          | None => VStr "anonymous"
          end in
        (Return {| ed_id := error_id;
                   ed_timestamp := utcnow w1;
                   ed_type := type_name exc;
                   ed_message := str_exc exc;
                   ed_location := tb_location w1;
                   ed_traceback := format_exc w1;
                   ed_context := context;
                   ed_user_id := user_id |}, w1, [])
    end.

(** The [async def dispatch] written under [handle_database_error].  It
    is a local function of that handler, defined after the handler has
    returned: nothing ever calls it. *)
Definition handle_database_error_dispatch
    (self : ErrorHandlingMiddleware_state Counts) (request : Request)
    (call_next : Request -> Py W Response) : Py W Response :=
  try_except (invoke call_next request) (fun exc =>
    try_except
      (error_details <- _get_error_details request exc ;;
       let status :=
         or3 (getattr_status_code exc)
             (status_codes_get (status_codes self) (type_name exc))
             (status_codes_get (status_codes self) "Exception") in
       status_code <-
         match status with
         | Some c => ret c
         | None => raise (OtherException "TypeError"
                     "'>=' not supported between 'NoneType' and 'int'")
         end ;;
       let log_level := if 500 <=? status_code then ERROR else WARNING in
       logger_log log_level
         (banner ++ "Error Details: {json.dumps(error_details, default=str)}
                ") ;;;
       notify <- call (EvShouldNotify (ed_type error_details) status_code)
                      (_should_notify (ed_type error_details) status_code) ;;
       (if notify : bool
        then call (EvCreateNotification (ed_id error_details) status_code)
                  (_create_error_notification error_details status_code)
        else ret tt) ;;;
       response_data <-
         lift_outcome (_get_response_data error_details status_code) ;;
       let response := JSONResponse status_code response_data in
       let response := set_header "X-Error-ID" (ed_id error_details) response in
       let response := set_header "X-Error-Type" (ed_type error_details) response in
       ret response)%py
      (fun e =>
         (logger_log ERROR (banner ++ "Error in error handler: {str(e)}
                ") ;;;
          ret (JSONResponse 500
                 (JObj [("error",
                         JObj [("type", JStr "InternalServerError");
                               ("message", JStr "An unexpected error occurred")])])))%py)).

End Methods.

(** The class body defines [__init__] and [_get_error_details] only: the
    [async def dispatch] of the file is indented under the module-level
    function [handle_database_error], after its [return].  Looking up
    [dispatch] on an instance therefore finds the base class's. *)
Definition dispatch {W} (request : Request)
    (call_next : Request -> Py W Response) : Py W Response :=
  BaseHTTPMiddleware.dispatch request call_next.

End ErrorHandling.

(** ** api/service/database_service.py *)
Module Database.

(** The Redis server as the service sees it: building the client and
    pinging it, each of which may raise. *)
Class Redis (W Conn : Type) := {
  redis_Redis : W -> outcome Conn * W;      (* redis.Redis with REDIS_CONFIG *)
  redis_ping : Conn -> W -> outcome bool * W
}.

Section Service.
Context {W Conn : Type} `{Redis W Conn}.

(** The one attribute that matters here, [self._redis]. *)
Record DatabaseService := { _redis : option Conn }.

(** Log records keep the first line of the f-string; the interpolated
    error text and clock are left out. *)
Definition _init_redis (self : DatabaseService) : Py W DatabaseService :=
  try_except
    (conn <- call EvRedisConnect redis_Redis ;;
     (* self._redis = conn *)
     call EvRedisPing (redis_ping conn) ;;;
     logger_log INFO "Redis initialized successfully:" ;;;
     ret {| _redis := Some conn |})%py
    (fun e =>
       (match e with
        | ConnectionError _ =>
            logger_log WARNING
              "Redis connection failed, will continue without Redis:"
        | _ => logger_log ERROR "Redis initialization error:"
        end ;;;
        (* self._redis = None *)
        ret {| _redis := None |})%py).

(** [DatabaseService()] *)
Definition __init__ : Py W DatabaseService :=
  _init_redis {| _redis := None |}.

(** The [redis] property. *)
Definition redis (self : DatabaseService) : option Conn := _redis self.

Definition is_redis_available (self : DatabaseService) : Py W bool :=
  match _redis self with
  | None => ret false
  | Some conn =>
      try_except
        (call EvRedisPing (redis_ping conn) ;;; ret true)%py
        (fun _ => ret false)
  end.

(** The store cannot be reached when the service starts in state [w]:
    building the client raises, or the first ping does. *)
Definition startup_fails (w : W) : Prop :=
  match redis_Redis w with
  | (Raise _, _) => True
  | (Return conn, w1) =>
      match redis_ping conn w1 with
      | (Raise _, _) => True
      | (Return _, _) => False
      end
  end.

End Service.
Arguments DatabaseService Conn : clear implicits.

End Database.

(** ** api/middleware/rate_limiting.py *)
Module RateLimiting.

Definition banner : string :=
  "
Current Date and Time (UTC - YYYY-MM-DD HH:MM:SS formatted): 2025-06-03 12:44:44
Current User's Login: fdygt
".

(** The object that [AuthService.verify_token] returns with its flag. *)
Record TokenData := { username : string }.

(** The two services the middleware holds, [AuthService] and
    [RateLimitService]; neither module is part of the sources at hand, so
    their methods are taken as they are called: each may change the
    outside state and may raise. *)
Class Services (W : Type) := {
  verify_token : string -> W -> outcome (bool * option TokenData) * W;
  check_rate_limit :
    string -> string -> string -> W -> outcome (bool * dict pyval) * W;
  log_request : string -> string -> string -> W -> outcome unit * W
}.

(** The message of the error record of [dispatch]; a plain literal. *)
Definition error_message : string :=
  banner ++ "Rate limit middleware error: {str(e)}
            ".

(** [get_rate_limit_key]: the f-string [{user_id}:{endpoint}:{ip_address}] *)
Definition get_rate_limit_key (user_id endpoint ip_address : string) : string :=
  user_id ++ ":" ++ endpoint ++ ":" ++ ip_address.

(** The prefixes of the paths that [dispatch] lets through unchecked. *)
Definition exempt_prefixes : list string :=
  ["/static/"; "/public/"; "/health"].

Section Middleware.
Context {W : Type} `{Services W}.

(** The module-level [check_rate_limit] and [update_rate_limit]. *)
Definition module_check_rate_limit (user_id endpoint ip_address : string)
  : Py W (bool * dict pyval) :=
  call (EvCheckRateLimit user_id endpoint ip_address)
       (check_rate_limit user_id endpoint ip_address).

Definition update_rate_limit (user_id endpoint ip_address : string)
  : Py W unit :=
  call (EvLogRequest user_id endpoint ip_address)
       (log_request user_id endpoint ip_address).

Definition get_user_id (request : Request) : Py W (option string) :=
  try_except
    (let auth_header := dict_get "Authorization" (req_headers request) in
     if negb (truthy auth_header)
        || negb (startswith (default "" auth_header) "Bearer ")
     then ret None
     else
       token <- lift_outcome
                  (index (split_on (Ascii.ascii_of_nat 32) (default "" auth_header)) 1) ;;
       verdict <- call (EvVerifyToken token) (verify_token token) ;;
       let '(is_valid, token_data) := verdict in
       match token_data with
       | Some data => if negb is_valid then ret None
                      else ret (Some (username data))
       | None => ret None
       end)%py
    (fun e =>
       (logger_log ERROR (banner ++ "Error extracting user ID: {str(e)}
            ") ;;;
        ret None)%py).

(** The two [except] clauses that close [dispatch]: an instance of
    [fastapi.HTTPException] is raised again as it is, anything else is
    logged and replaced. *)
Definition dispatch_except (e : exn) : Py W Response :=
  match e with
  | HTTPException _ _ _ => raise e
  | _ =>
      (logger_log ERROR error_message ;;;
       raise (HTTPException 500
                (JStr "Internal server error in rate limiting") None))%py
  end.

(** The [try] block of [dispatch]. *)
Definition dispatch_try (request : Request)
    (call_next : Request -> Py W Response) : Py W Response :=
    (uid <- get_user_id request ;;
     let user_id := py_or uid "anonymous" in
     ip_address <- lift_outcome (client_host request) ;;
     let endpoint := path request in
     if startswith_any endpoint exempt_prefixes
     then invoke call_next request
     else
       verdict <- call (EvCheckRateLimit user_id endpoint ip_address)
                       (check_rate_limit user_id endpoint ip_address) ;;
       let '(is_allowed, limit_info) := verdict in
       if negb is_allowed
       then
         reset <- lift_outcome (getitem limit_info "reset") ;;
         limit <- lift_outcome (getitem limit_info "limit") ;;
         window <- lift_outcome (getitem limit_info "window") ;;
         raise (HTTPException 429
                  (JObj [("error", JStr "Too Many Requests");
                         ("reset", json_of reset);
                         ("limit", json_of limit);
                         ("remaining", JInt 0);
                         ("retry_after", json_of window)])
                  None)
       else
         call (EvLogRequest user_id endpoint ip_address)
              (log_request user_id endpoint ip_address) ;;;
         response <- invoke call_next request ;;
         limit <- lift_outcome (getitem limit_info "limit") ;;
         let response := set_header "X-RateLimit-Limit" (py_str limit) response in
         remaining <- lift_outcome (getitem limit_info "remaining") ;;
         let response :=
           set_header "X-RateLimit-Remaining" (py_str remaining) response in
         reset <- lift_outcome (getitem limit_info "reset") ;;
         reset_text <- lift_outcome (header_value reset) ;;
         let response := set_header "X-RateLimit-Reset" reset_text response in
         ret response)%py.

Definition dispatch (request : Request)
    (call_next : Request -> Py W Response) : Py W Response :=
  try_except (dispatch_try request call_next) dispatch_except.

(** The request carries no valid bearer token in state [w]: the
    [Authorization] header is missing or empty, or does not start with
    [Bearer ], or its token fails verification (the service refuses it,
    returns no token data, or raises). *)
Definition lacks_valid_bearer (request : Request) (w : W) : Prop :=
  let auth_header := dict_get "Authorization" (req_headers request) in
  truthy auth_header = false
  \/ startswith (default "" auth_header) "Bearer " = false
  \/ exists token,
       index (split_on (Ascii.ascii_of_nat 32) (default "" auth_header)) 1
         = Return token
       /\ match verify_token token w with
          | (Return (is_valid, token_data), _) =>
              is_valid = false \/ token_data = None
          | (Raise _, _) => True
          end.

(** The request is let through: the rest of the chain is invoked and its
    response comes back, no exception leaves the stage. *)
Definition fails_open (request : Request)
    (call_next : Request -> Py W Response) (w : W) : Prop :=
  exists response w' t,
    dispatch request call_next w = (Return response, w', t)
    /\ EvCallNext request ∈ t.

(** The stage checks the quota of the request under the identity
    ["anonymous"], its path and its client address. *)
Definition checked_as_anonymous (request : Request)
    (call_next : Request -> Py W Response) (w : W) : Prop :=
  exists ip,
    client request = Some ip
    /\ EvCheckRateLimit "anonymous" (path request) ip
         ∈ (dispatch request call_next w).2.

(** [handle_exceeded_rate_limit]: the dict is handed as [content] to
    the plain [Response] class, which renders the body before it looks
    at the headers.  No function of the module calls it. *)
Definition handle_exceeded_rate_limit (request : Request)
    (limit_info : dict pyval) : Py W Response :=
  (reset <- lift_outcome (getitem limit_info "reset") ;;
   limit <- lift_outcome (getitem limit_info "limit") ;;
   window <- lift_outcome (getitem limit_info "window") ;;
   let body :=
     JObj [("error", JStr "Too Many Requests");
           ("message", JStr "Rate limit exceeded");
           ("reset", json_of reset);
           ("limit", json_of limit);
           ("remaining", JInt 0);
           ("retry_after", json_of window)] in
   lift_outcome
     (PlainResponse 429 body
        [("X-RateLimit-Limit", VStr (py_str limit));
         ("X-RateLimit-Remaining", VStr "0");
         ("X-RateLimit-Reset", reset);
         ("Retry-After", VStr (py_str window))]))%py.

End Middleware.

(** The 500 that [dispatch] raises in place of any other exception. *)
Definition internal_error : exn :=
  HTTPException 500 (JStr "Internal server error in rate limiting") None.

(** The 429 that [dispatch] raises for a refused request. *)
Definition too_many_requests (reset limit window : pyval) : exn :=
  HTTPException 429
    (JObj [("error", JStr "Too Many Requests");
           ("reset", json_of reset);
           ("limit", json_of limit);
           ("remaining", JInt 0);
           ("retry_after", json_of window)])
    None.

Definition is_log_request (ev : event) : bool :=
  match ev with
  | EvLogRequest _ _ _ => true
  | _ => false
  end.

End RateLimiting.

(** ** api/middleware/__init__.py *)
Module Pipeline.

Definition CURRENT_TIMESTAMP : string := "2025-06-03 01:44:57".
Definition CURRENT_USER : string := "fdygt".

Definition get_current_time : string := CURRENT_TIMESTAMP.
Definition get_current_user : string := CURRENT_USER.

Definition format_log_message (message : string) : string :=
  "
    " ++ message ++ "
    Timestamp: " ++ CURRENT_TIMESTAMP ++ "
    User: " ++ CURRENT_USER ++ "
    ".

(** The part of the framework's application object that
    [setup_middleware] touches ([starlette.applications.Starlette]):
    the list [user_middleware] and whether the stack has been built. *)
Record App := {
  user_middleware : list middleware_class;
  started : bool
}.

(** [Starlette.add_middleware]: refuses once the application has
    started; otherwise [self.user_middleware.insert(0, Middleware(cls))]. *)
Definition add_middleware (cls : middleware_class) : @M App event unit :=
  fun app =>
    if started app
    then (Raise (RuntimeError
                   "Cannot add middleware after an application has started"),
          app, [])
    else (Return tt,
          {| user_middleware := cls :: user_middleware app;
             started := started app |}, []).

Definition setup_middleware : @M App event unit :=
  try_except
    (add_middleware MetricsMiddleware ;;;
     add_middleware LoggingMiddleware ;;;
     add_middleware SecurityMiddleware ;;;
     add_middleware ValidationMiddleware ;;;
     add_middleware CompressionMiddleware ;;;
     add_middleware ErrorHandlingMiddleware ;;;
     add_middleware RateLimitMiddleware ;;;
     add_middleware CacheMiddleware ;;;
     add_middleware AuthMiddleware ;;;
     logger_log INFO (format_log_message "
        Middleware setup complete:
        1. Metrics Middleware
        2. Logging Middleware
        3. Security Middleware
        4. Validation Middleware
        5. Compression Middleware
        6. Error Handling Middleware
        7. Rate Limiting Middleware
        8. Cache Middleware
        9. Auth Middleware
        "))%py
    (fun e =>
       (logger_log ERROR (format_log_message ("
        Failed to setup middleware:
        Error: " ++ exn_text e ++ "
        ")) ;;;
        raise e)%py).

Section Stack.
Context {W : Type}.
(** What each class does with a request and the rest of the chain. *)
Context (stage : middleware_class -> Request ->
                 (Request -> Py W Response) -> Py W Response).

(** [Starlette.build_middleware_stack], for the user middleware: the
    router is wrapped by the classes of [user_middleware] from the last
    one to the first, so the first one of the list is outermost.  Entering a stage is
    recorded. *)
Definition build_middleware_stack (app : App)
    (router : Request -> Py W Response) : Request -> Py W Response :=
  foldr (fun cls inner request =>
           bind (emit (EvEnter cls)) (fun _ => stage cls request inner))
        router (user_middleware app).

End Stack.

(** A stage that only observes and hands the request on. *)
Definition pass_through {W} (cls : middleware_class) (request : Request)
    (call_next : Request -> Py W Response) : Py W Response :=
  call_next request.

(** The stages entered by a run, in order. *)
Definition entered (t : list event) : list middleware_class :=
  omap (fun ev => match ev with EvEnter c => Some c | _ => None end) t.

(** The application before [setup_middleware]. *)
Definition fresh_app : App := {| user_middleware := []; started := false |}.

(** The order the module's comments and its log message give. *)
Definition documented_order : list middleware_class :=
  [MetricsMiddleware; LoggingMiddleware; SecurityMiddleware;
   ValidationMiddleware; CompressionMiddleware; ErrorHandlingMiddleware;
   RateLimitMiddleware; CacheMiddleware; AuthMiddleware].

End Pipeline.

(** ** The error aggregation engine *)
Module ErrorAggregation.
Import ErrorHandling.

(** What the engine keeps for one error type: the time stamps of the
    records inside the window, oldest first, and the time of the last
    notification. *)
Record window_state := {
  records : list Z;
  last_crossing : option Z
}.

Definition empty_window : window_state :=
  {| records := []; last_crossing := None |}.

(** Records older than the window are dropped. *)
Definition evict (window now : Z) (rs : list Z) : list Z :=
  filter (fun t => now - t <= window) rs.

(** Modelled from the spec: the methods [_should_notify] and
    [_create_error_notification] of [ErrorHandlingMiddleware] are missing
    from [error_handling.py] ("rest of the methods remain the same"); only
    the settings and the empty [error_counts] of [__init__] are there.
    Following section 4.3: a new error of a type evicts the records of
    that type older than the window, appends its own time-stamped record,
    and a notification is due when the count in the window has reached
    the threshold, the status code is a notify-worthy one, and the window
    has rolled past the previous notification of that type. *)
Definition observe (window threshold : Z) (notify_on : gset Z)
    (now status : Z) (st : window_state) : window_state * bool :=
  let rs := (evict window now (records st) ++ [now])%list in
  let due :=
    bool_decide (threshold <= Z.of_nat (length rs))
    && bool_decide (status ∈ notify_on)
    && match last_crossing st with
       | None => true
       | Some t0 => bool_decide (window < now - t0)
       end in
  ({| records := rs;
      last_crossing := if due then Some now else last_crossing st |},
   due).

(** Modelled from the spec: [_should_notify(error_type, status_code)] on
    the middleware object, at clock reading [now]; it updates
    [self.error_counts[error_type]] and answers whether to notify. *)
Definition _should_notify (self : ErrorHandlingMiddleware_state window_state)
    (error_type : string) (status_code now : Z)
  : ErrorHandlingMiddleware_state window_state * bool :=
  let st := default empty_window (error_counts self !! error_type) in
  let '(st', due) :=
    observe (ERROR_AGGREGATION_WINDOW self)
            (ERROR_NOTIFICATION_THRESHOLD self)
            (NOTIFY_ON_STATUS self) now status_code st in
  ({| status_codes := status_codes self;
      NOTIFY_ON_STATUS := NOTIFY_ON_STATUS self;
      ERROR_AGGREGATION_WINDOW := ERROR_AGGREGATION_WINDOW self;
      ERROR_NOTIFICATION_THRESHOLD := ERROR_NOTIFICATION_THRESHOLD self;
      error_counts := <[error_type := st']> (error_counts self) |},
   due).

(** Recording a sequence of errors of one type, each given by its time
    and its classified status code; the answers, in order. *)
Fixpoint record_all (self : ErrorHandlingMiddleware_state window_state)
    (error_type : string) (errors : list (Z * Z)) : list bool :=
  match errors with
  | [] => []
  | (now, status) :: rest =>
      let '(self', due) := _should_notify self error_type status now in
      due :: record_all self' error_type rest
  end.

(** The number of errors among the first [i + 1] of the sequence that lie
    within [window] of time [now]. *)
Definition count_in_window (window : Z) (errors : list (Z * Z))
    (i : nat) (now : Z) : Z :=
  Z.of_nat (length (filter (fun e : Z * Z => now - e.1 <= window)
                           (take (S i) errors))).

(** Time never runs backwards along the sequence. *)
Definition chronological (errors : list (Z * Z)) : Prop :=
  forall i j ti tj si sj,
    (i <= j)%nat -> errors !! i = Some (ti, si) ->
    errors !! j = Some (tj, sj) -> ti <= tj.

Section Window.
Variables (W T : Z) (N : gset Z).

(** The engine on the records of one type. *)
Definition obs (e : Z * Z) (st : window_state) : window_state * bool :=
  observe W T N e.1 e.2 st.

Fixpoint answers (st : window_state) (errors : list (Z * Z)) : list bool :=
  match errors with
  | [] => []
  | e :: rest => (obs e st).2 :: answers (obs e st).1 rest
  end.

Definition after (st : window_state) (errors : list (Z * Z)) : window_state :=
  foldl (fun st e => (obs e st).1) st errors.

(** What the state holds after a chronological run: the records still
    in the window of any later instant, and the time of the last
    notification. *)
Definition window_inv (l : list (Z * Z)) (st : window_state) : Prop :=
  (forall now,
     (forall j tj sj, l !! j = Some (tj, sj) -> tj <= now) ->
     evict W now (records st) = filter (fun t => now - t <= W) l.*1)
  /\ match last_crossing st with
     | None => forall j, answers empty_window l !! j <> Some true
     | Some t0 =>
         (exists j s, l !! j = Some (t0, s)
                      /\ answers empty_window l !! j = Some true)
         /\ forall j tj sj,
              l !! j = Some (tj, sj) ->
              answers empty_window l !! j = Some true -> tj <= t0
     end.

End Window.

(** The same, as a check that runs. *)
Fixpoint chronologicalb (errors : list (Z * Z)) : bool :=
  match errors with
  | [] => true
  | e :: rest =>
      forallb (fun e' : Z * Z => e.1 <=? e'.1) rest && chronologicalb rest
  end.

End ErrorAggregation.

(** ** The rate-limit service on a counter store *)
Module FixedWindow.
Import RateLimiting.

(** The configured quota: at most [limit] requests per window; [reset]
    is the rendered expiry of the current window. *)
Record config := {
  limit : nat;
  window : Z;
  reset : string
}.

(** The shared store as the engine sees it: whether it can be reached,
    the counter of each key, and the lines the engine has logged. *)
Record store := {
  available : bool;
  counters : gmap string nat;
  service_log : list string
}.

(** [RateLimitRecord.count] of a key; a key that is absent counts 0. *)
Definition count (s : store) (key : string) : nat :=
  default 0%nat (counters s !! key).

(** A store that can be reached and holds no counter yet, and one that
    cannot be reached. *)
Definition fresh : store :=
  {| available := true; counters := ∅; service_log := [] |}.

Definition unreachable : store :=
  {| available := false; counters := ∅; service_log := [] |}.

(** The quota metadata for a post-increment count [c]: [remaining] is
    [limit - c], clamped at 0. *)
Definition limit_info (cfg : config) (c : nat) : dict pyval :=
  [("limit", VInt (Z.of_nat (limit cfg)));
   ("remaining", VInt (Z.max 0 (Z.of_nat (limit cfg) - Z.of_nat c)));
   ("reset", VStr (reset cfg));
   ("window", VInt (window cfg))].

Definition degradation : string :=
  "rate-limit store unavailable, request allowed".

(** Modelled from the spec: [RateLimitService]
    ([api/service/rate_limit_service.py]) is missing from the sources.
    Section 4.2: fixed-window counting keyed by [userId:endpoint:ip]; on
    each call the counter of the key is incremented atomically, the
    request is denied with [remaining = 0] when the post-increment count
    exceeds the limit and allowed with [remaining = limit - count]
    otherwise; when the store is unavailable the engine fails open,
    logging the degradation.  The call is one step of the store.  One
    window is modelled; expiry is not. *)
Definition check (cfg : config) (user_id endpoint ip_address : string)
    (s : store) : outcome (bool * dict pyval) * store :=
  if available s then
    let key := get_rate_limit_key user_id endpoint ip_address in
    let c := S (count s key) in
    (Return (bool_decide (c <= limit cfg)%nat, limit_info cfg c),
     {| available := true;
        counters := <[key := c]> (counters s);
        service_log := service_log s |})
  else
    (Return (true, limit_info cfg 0),
     {| available := false;
        counters := counters s;
        service_log := (service_log s ++ [degradation])%list |}).

(** Modelled from the spec: [RateLimitService.log_request].  Section 4.2
    gives the engine the single operation that checks and consumes, so
    the quota has been consumed when [dispatch] comes to [log_request]:
    the call touches no counter. *)
Definition log (user_id endpoint ip_address : string) (s : store)
  : outcome unit * store :=
  (Return tt, s).

(** The authentication service is any function of the token; it does
    not touch the store. *)
Definition verify (auth : string -> outcome (bool * option TokenData))
    (token : string) (s : store)
  : outcome (bool * option TokenData) * store :=
  (auth token, s).

#[export] Instance services (cfg : config)
    (auth : string -> outcome (bool * option TokenData)) : Services store :=
  {| verify_token := verify auth;
     check_rate_limit := check cfg;
     log_request := log |}.

(** *** Requests in flight

    [dispatch] awaits [check_rate_limit], then [log_request]; between
    the two awaits other requests run.  A request in flight is before
    its check, between its check and its log, or finished; once checked
    it remembers the count it saw, that is, the count its own increment
    produced. *)
Inductive phase :=
| Ready
| Allowed (seen : nat)
| Finished (allowed : bool) (seen : nat).

Record flight := {
  f_user : string;
  f_endpoint : string;
  f_ip : string;
  f_phase : phase
}.

Definition flight_key (f : flight) : string :=
  get_rate_limit_key (f_user f) (f_endpoint f) (f_ip f).

Definition set_phase (f : flight) (ph : phase) : flight :=
  {| f_user := f_user f; f_endpoint := f_endpoint f; f_ip := f_ip f;
     f_phase := ph |}.

(** One await of one request. *)
Definition step (cfg : config) (f : flight) (s : store) : flight * store :=
  match f_phase f with
  | Ready =>
      match check cfg (f_user f) (f_endpoint f) (f_ip f) s with
      | (Return (true, _), s') =>
          (set_phase f (Allowed (count s' (flight_key f))), s')
      | (_, s') =>
          (set_phase f (Finished false (count s' (flight_key f))), s')
      end
  | Allowed n =>
      let '(_, s') := log (f_user f) (f_endpoint f) (f_ip f) s in
      (set_phase f (Finished true n), s')
  | Finished _ _ => (f, s)
  end.

(** A schedule names, step by step, the request that runs next. *)
Fixpoint run_schedule (cfg : config) (schedule : list nat)
    (s : store) (flights : list flight) : store * list flight :=
  match schedule with
  | [] => (s, flights)
  | i :: rest =>
      match flights !! i with
      | Some f =>
          let '(f', s') := step cfg f s in
          run_schedule cfg rest s' (<[i := f']> flights)
      | None => run_schedule cfg rest s flights
      end
  end.

(** One request run alone from its check to its end. *)
Definition run_alone (cfg : config) (f : flight) (s : store)
  : flight * store :=
  let '(f1, s1) := step cfg f s in step cfg f1 s1.

(** The count a checked request saw. *)
Definition seen_count (f : flight) : option nat :=
  match f_phase f with
  | Ready => None
  | Allowed n | Finished _ n => Some n
  end.

(** The request was let through by its check. *)
Definition let_through (f : flight) : bool :=
  match f_phase f with
  | Allowed _ | Finished true _ => true
  | _ => false
  end.

Section Counting.
Variable key : string.

(** Requests on [key] that have been checked, and those among them that
    were let through. *)
Definition checked_on (f : flight) : nat :=
  match f_phase f with
  | Ready => 0%nat
  | _ => if decide (flight_key f = key) then 1%nat else 0%nat
  end.

Definition allowed_on (f : flight) : nat :=
  if let_through f
  then if decide (flight_key f = key) then 1%nat else 0%nat
  else 0%nat.

End Counting.

Definition total (w : flight -> nat) (flights : list flight) : nat :=
  sum_list (w <$> flights).

Definition all_ready (flights : list flight) : Prop :=
  Forall (fun f => f_phase f = Ready) flights.

(** What the counters and the requests in flight satisfy at every
    moment of a run that started from the store [s0] with no request
    checked yet: the counter of a key has grown by the number of checks
    made on it; the requests let through on a key fit in what was left
    of its quota; a checked request saw a count above the initial one
    and was let through exactly when that count was within the limit;
    and no two requests on one key saw the same count. *)
Definition serialized (cfg : config) (s0 s : store)
    (flights : list flight) : Prop :=
  available s = true
  /\ (forall key,
        count s key = (count s0 key + total (checked_on key) flights)%nat)
  /\ (forall key,
        (total (allowed_on key) flights
         <= Nat.min (count s key) (limit cfg) - count s0 key)%nat)
  /\ (forall i f n,
        flights !! i = Some f -> seen_count f = Some n ->
        (count s0 (flight_key f) < n <= count s (flight_key f))%nat
        /\ let_through f = bool_decide (n <= limit cfg)%nat)
  /\ (forall i j f g n,
        i <> j -> flights !! i = Some f -> flights !! j = Some g ->
        flight_key f = flight_key g ->
        seen_count f = Some n -> seen_count g <> Some n).

Section OnDispatch.
Context (cfg : config) (auth : string -> outcome (bool * option TokenData)).

(** The store after the requests have been served one after the other
    by [dispatch] over the engine. *)
Definition serve (call_next : Request -> Py store Response)
    (requests : list Request) (s : store) : store :=
  foldl (fun s request =>
           (@dispatch _ (services cfg auth) request call_next s).1.2)
        s requests.

End OnDispatch.

(** The invariant of the specification, as a statement about the
    requests served from a reachable store that holds no counter yet,
    by a chain that leaves the store alone: the counter of a key never
    passes [limit + 1]. *)
Definition count_stays_within_limit_plus_one (cfg : config) : Prop :=
  forall (auth : string -> outcome (bool * option TokenData))
         (call_next : Request -> Py store Response)
         (requests : list Request) (key : string),
    (forall request s, (call_next request s).1.2 = s) ->
    (count (serve cfg auth call_next requests fresh) key
     <= limit cfg + 1)%nat.

End FixedWindow.

(** ** api/routes/__init__.py *)
Module Routes.

(** The values of the dictionaries built by [get_system_info]; [F]
    stands for Python's floats, which are only passed along. *)
Inductive stat (F : Type) :=
| StInt (n : Z)
| StFloat (x : F)
| StStr (s : string).
Arguments StInt {F} n.
Arguments StFloat {F} x.
Arguments StStr {F} s.

(** What [psutil.virtual_memory()] and [psutil.disk_usage(path)] return,
    as far as the module reads them. *)
Record memory_stats (F : Type) := {
  mem_total : Z;
  mem_available : Z;
  mem_percent : F
}.
Arguments mem_total {F} _.
Arguments mem_available {F} _.
Arguments mem_percent {F} _.

Record disk_stats (F : Type) := {
  disk_total : Z;
  disk_free : Z;
  disk_percent : F
}.
Arguments disk_total {F} _.
Arguments disk_free {F} _.
Arguments disk_percent {F} _.

(** The keyword arguments of [SystemInfo(...)]. *)
Record system_fields (F : Type) := {
  python_version : string;
  platform : string;
  timezone : string;
  memory : dict (stat F);
  disk : dict (stat F);
  cpu_percent : F
}.
Arguments python_version {F} _.
Arguments platform {F} _.
Arguments timezone {F} _.
Arguments memory {F} _.
Arguments disk {F} _.
Arguments cpu_percent {F} _.

(** The host as the module sees it: [psutil], [sys], [platform], the
    clock, and the model class [SystemInfo] of [api/models/dashboard.py],
    whose constructor validates its arguments and may refuse them. *)
Class Host (W F Info Dict : Type) := {
  virtual_memory : W -> outcome (memory_stats F) * W;
  disk_usage : string -> W -> outcome (disk_stats F) * W;
  psutil_cpu_percent : W -> outcome F * W;    (* interval=0.1 *)
  round2 : F -> F;                            (* round(x, 2) *)
  zero : F;                                   (* 0.0 *)
  sys_version : string;
  platform_platform : W -> outcome string * W;
  SystemInfo : system_fields F -> outcome Info;
  SystemInfo_dict : Info -> Dict;             (* .dict() *)
  utcnow_text : W -> string   (* datetime.now(UTC).strftime(...) *)
}.

(** The body of the answer of [/system]. *)
Record system_body (Dict : Type) := {
  body_system : Dict;
  body_user : string;
  body_status : string;
  body_timestamp : string
}.
Arguments body_system {Dict} _.
Arguments body_user {Dict} _.
Arguments body_status {Dict} _.
Arguments body_timestamp {Dict} _.

Section System.
Context {W F Info Dict : Type} `{Host W F Info Dict}.

(** A call to the host; it leaves no record in the trace. *)
Definition host_call {A} (f : W -> outcome A * W) : Py W A :=
  fun w => let '(r, w1) := f w in (r, w1, []).

Definition memory_unavailable : dict (stat F) :=
  [("error", StStr "Memory stats unavailable")].

Definition disk_unavailable : dict (stat F) :=
  [("error", StStr "Disk stats unavailable")].

Definition get_system_info : Py W Info :=
  (memory_info <-
     try_except
       (m <- host_call virtual_memory ;;
        ret [("total", StInt (mem_total m));
             ("available", StInt (mem_available m));
             ("percent", StFloat (round2 (mem_percent m)))])
       (fun _ => ret memory_unavailable) ;;
   disk_info <-
     try_except
       (d <- host_call (disk_usage "/") ;;
        ret [("total", StInt (disk_total d));
             ("free", StInt (disk_free d));
             ("percent", StFloat (round2 (disk_percent d)))])
       (fun _ => ret disk_unavailable) ;;
   cpu <-
     try_except
       (x <- host_call psutil_cpu_percent ;; ret (round2 x))
       (fun _ => ret zero) ;;
   plat <- host_call platform_platform ;;
   lift_outcome
     (SystemInfo {| python_version := sys_version;
                    platform := plat;
                    timezone := "UTC";
                    memory := memory_info;
                    disk := disk_info;
                    cpu_percent := cpu |}))%py.

(** [GET /system].  Log records keep the first line of the f-string. *)
Definition system_status : Py W (system_body Dict) :=
  try_except
    (logger_log INFO "System status check:" ;;;
     info <- get_system_info ;;
     fun w =>
       (Return {| body_system := SystemInfo_dict info;
                  body_user := "fdygt";
                  body_status := "ok";
                  body_timestamp := utcnow_text w |}, w, []))%py
    (fun e =>
       (logger_log ERROR "System status error:" ;;;
        raise (HTTPException 500 (JStr "System status check failed") None))%py).

End System.

End Routes.

(** ** Concrete collaborators and requests used in the examples *)
Module Fixtures.
Import RateLimiting.

(** [GET <path>] from 10.0.0.7, with the given headers. *)
Definition get (p : string) (hs : dict string) : Request :=
  {| method := "GET"; path := p; query_params := [];
     client := Some "10.0.0.7"; req_headers := hs; state_user := None |}.

Definition orders_request : Request := get "/orders" [].
Definition health_request : Request := get "/health" [].

(** [GET <path>] on a connection for which the server recorded no client
    address (a Unix socket, say). *)
Definition clientless (p : string) : Request :=
  {| method := "GET"; path := p; query_params := [];
     client := None; req_headers := []; state_user := None |}.

(** An authentication service for the examples: a token is the name of
    its user, and the empty token is refused. *)
Definition token_names_user (token : string)
  : outcome (bool * option TokenData) :=
  Return (negb (String.eqb token ""), Some {| username := token |}).
Definition orders_request_of (user : string) : Request :=
  get "/orders" [("Authorization", "Bearer " ++ user)].

(** The rest of the chain answers 200 with an empty object. *)
Definition ok_next {W} (request : Request) : Py W Response :=
  ret (JSONResponse 200 (JObj [])).

(** A store that cannot be reached: every call of the rate-limit service
    raises the client's connection error.  No token verifies. *)
Definition unreachable_store : Services unit :=
  {| verify_token := fun _ w => (Return (false, None), w);
     check_rate_limit := fun _ _ _ w =>
       (Raise (ConnectionError "Error 111 connecting to localhost:6379"), w);
     log_request := fun _ _ _ w =>
       (Raise (ConnectionError "Error 111 connecting to localhost:6379"), w) |}.

Definition exhausted_info : dict pyval :=
  [("limit", VInt 3); ("remaining", VInt 0);
   ("reset", VStr "2025-06-03T12:45:44"); ("window", VInt 60)].

(** A service whose quota is used up: every check is refused. *)
Definition exhausted_quota : Services unit :=
  {| verify_token := fun _ w => (Return (false, None), w);
     check_rate_limit := fun _ _ _ w => (Return (false, exhausted_info), w);
     log_request := fun _ _ _ w => (Return tt, w) |}.

(** A Redis server given by its answers to the successive pings:
    [true] for a pong, [false] for a refused connection; once the list is
    used up the server is gone.  Building the client does not connect. *)
Definition scripted_redis : Database.Redis (list bool) unit :=
  {| Database.redis_Redis := fun w => (Return tt, w);
     Database.redis_ping := fun _ w =>
       match w with
       | true :: w' => (Return true, w')
       | false :: w' => (Raise (ConnectionError "Connection refused"), w')
       | [] => (Raise (ConnectionError "Connection refused"), [])
       end |}.

(** Six server errors ten seconds apart, then, more than a window
    later, five more: each entry is a time in seconds and a status. *)
Definition two_bursts : list (Z * Z) :=
  [(0, 500); (10, 500); (20, 500); (30, 500); (40, 500); (50, 500);
   (400, 500); (410, 500); (420, 500); (430, 500); (440, 500)].

(** One request per minute. *)
Definition one_per_minute : FixedWindow.config :=
  {| FixedWindow.limit := 1; FixedWindow.window := 60;
     FixedWindow.reset := "2025-06-03T12:45:44" |}.

(** Three requests per minute, the scenario of section 8. *)
Definition three_per_minute : FixedWindow.config :=
  {| FixedWindow.limit := 3; FixedWindow.window := 60;
     FixedWindow.reset := "2025-06-03T12:45:44" |}.

(** An anonymous [GET /orders] from 10.0.0.7 about to be checked, and
    three of them in flight together. *)
Definition anonymous_order : FixedWindow.flight :=
  {| FixedWindow.f_user := "anonymous"; FixedWindow.f_endpoint := "/orders";
     FixedWindow.f_ip := "10.0.0.7"; FixedWindow.f_phase := FixedWindow.Ready |}.

Definition three_in_flight : list FixedWindow.flight :=
  [anonymous_order; anonymous_order; anonymous_order].

(** A service with quota left: every token names its user, every check
    is granted two more requests, every request is logged. *)
Definition quota_left_info : dict pyval :=
  [("limit", VInt 3); ("remaining", VInt 2);
   ("reset", VStr "2025-06-03T12:45:44"); ("window", VInt 60)].

Definition quota_left : Services unit :=
  {| verify_token := fun token w =>
       (Return (true, Some {| username := token |}), w);
     check_rate_limit := fun _ _ _ w => (Return (true, quota_left_info), w);
     log_request := fun _ _ _ w => (Return tt, w) |}.

(** A chain whose route fails on a bad value. *)
Definition failing_next {W} (request : Request) : Py W Response :=
  raise (ValueError "invalid literal for int()").

(** An interpreter whose UUIDs, clock and tracebacks are fixed. *)
Definition fixed_runtime : ErrorHandling.Runtime unit :=
  {| ErrorHandling.uuid4 := fun w =>
       ("3f2b8c1e-0d4a-4e6f-9a7b-5c1d2e3f4a5b", w);
     ErrorHandling.utcnow := fun _ => 1748952781;
     ErrorHandling.tb_location := fun _ => "api/routes/stock.py:42";
     ErrorHandling.format_exc := fun _ => "Traceback (most recent call last):";
     ErrorHandling.str_exc := type_name |}.

(** A host without [psutil] data: every reading fails; floats are
    hundredths of a percent, the model class accepts everything. *)
Definition bare_host
  : Routes.Host unit Z (Routes.system_fields Z) (Routes.system_fields Z) :=
  {| Routes.virtual_memory := fun w =>
       (Raise (OtherException "AccessDenied" "psutil"), w);
     Routes.disk_usage := fun _ w =>
       (Raise (OtherException "FileNotFoundError" "/"), w);
     Routes.psutil_cpu_percent := fun w =>
       (Raise (OtherException "AccessDenied" "psutil"), w);
     Routes.round2 := fun x => x;
     Routes.zero := 0;
     Routes.sys_version := "3.12.3";
     Routes.platform_platform := fun w => (Return "Linux-6.8-x86_64", w);
     Routes.SystemInfo := fun fields => Return fields;
     Routes.SystemInfo_dict := fun info => info;
     Routes.utcnow_text := fun _ => "2025-06-03 12:13:01" |}.

End Fixtures.

(** * Part II: properties *)

(** ** The effect monad *)

(** A [try] whose handler always returns always returns. *)
Lemma try_except_total {W A : Type} (m : Py W A) (h : exn -> Py W A) :
  (forall e w, exists a w' t, h e w = (Return a, w', t)) ->
  forall w, exists a w' t, try_except m h w = (Return a, w', t).
Proof.
  intros Hh w. unfold try_except.
  destruct (m w) as [[[a|e] w1] t1]; [by eexists _, _, _|].
  destruct (Hh e w1) as (a & w' & t & ->). by eexists _, _, _.
Qed.

(** A [try] whose body starts with a step that returns. *)
Lemma try_bind_return {W A B : Type} (m : Py W A) (k : A -> Py W B)
    (h : exn -> Py W B) (w w1 : W) (a : A) (t1 : list event) :
  m w = (Return a, w1, t1) ->
  try_except (bind m k) h w
  = (let '(r, w', t) := try_except (k a) h w1 in (r, w', (t1 ++ t)%list)).
Proof.
  intros Hm. unfold try_except, bind. rewrite Hm.
  destruct (k a w1) as [[[b|e] w2] t2]; [reflexivity|].
  destruct (h e w2) as [[r w3] t3]. by rewrite app_assoc.
Qed.

(** A [try] whose body starts with a call: the call is the first thing
    recorded. *)
Lemma try_call_first {W A B : Type} (ev : event) (f : W -> outcome A * W)
    (k : A -> Py W B) (h : exn -> Py W B) (w : W) :
  exists r w' t, try_except (bind (call ev f) k) h w = (r, w', ev :: t).
Proof.
  unfold try_except, bind, call.
  destruct (f w) as [[a|e] w1].
  - destruct (k a w1) as [[[b|e] w2] t2]; [by eexists _, _, _|].
    destruct (h e w2) as [[r w3] t3]. by eexists _, _, _.
  - destruct (h e w1) as [[r w3] t3]. by eexists _, _, _.
Qed.

(** ** The module-level handlers of error_handling.py *)
Module ErrorHandlingFacts.
Import ErrorHandling.

(** C10. [handle_database_error] answers every exception, on every
    request, with the same response: status 500 and the fixed body
    [{"detail": "A database error occurred."}]; nothing of the exception
    reaches the client (nor, the log message being a plain literal, the
    log). *)
Theorem handle_database_error_is_constant :
  forall (W : Type) (request1 request2 : Request) (exc1 exc2 : exn) (w : W),
    (handle_database_error request1 exc1 w).1.1
      = Return (JSONResponse 500
                  (JObj [("detail", JStr "A database error occurred.")]))
    /\ status_code (JSONResponse 500
                  (JObj [("detail", JStr "A database error occurred.")])) = 500
    /\ handle_database_error request1 exc1 w
       = handle_database_error request2 exc2 w.
Proof.
  intros W request1 request2 exc1 exc2 w.
  split; [reflexivity | split; reflexivity].
Qed.

(** C3, on the code. The class [ErrorHandlingMiddleware] has no
    [dispatch] of its own, so the stage answers every request by raising
    [NotImplementedError], whatever the rest of the chain would do: it
    never invokes the chain, catches nothing and builds no response. *)
Theorem error_handling_stage_catches_nothing :
  forall (W : Type) (request : Request)
         (call_next : Request -> Py W Response) (w : W),
    ErrorHandling.dispatch request call_next w
      = (Raise NotImplementedError, w, [])
    /\ ErrorHandling.dispatch request
         (fun _ => raise (ValueError "invalid literal")) w
       = (Raise NotImplementedError, w, []).
Proof. intros W request call_next w. split; reflexivity. Qed.

Lemma or3_Some (a b : option Z) (c : Z) :
  exists r, or3 a b (Some c) = Some r.
Proof.
  unfold or3, truthy_int.
  destruct a as [x|]; [destruct (x =? 0)|]; simpl;
    destruct b as [y|]; try destruct (y =? 0); simpl; eauto.
Qed.

Section LocalDispatch.
Context {W : Type} `{Runtime W}.
Context (_should_notify : string -> Z -> W -> outcome bool * W).
Context (_create_error_notification :
           error_details -> Z -> W -> outcome unit * W).
Context (_get_response_data : error_details -> Z -> outcome json).

(** Had that function been the method, no exception of the chain would
    leave it: it returns a response in every case. *)
Lemma handle_database_error_dispatch_total
    (self : ErrorHandlingMiddleware_state unit) (request : Request)
    (call_next : Request -> Py W Response) (w : W) :
  exists response w' t,
    handle_database_error_dispatch _should_notify
      _create_error_notification _get_response_data self request call_next w
    = (Return response, w', t).
Proof.
  unfold handle_database_error_dispatch.
  apply try_except_total. intros exc w1.
  apply try_except_total. intros e w2.
  unfold bind, logger_log, emit, ret. by eexists _, _, _.
Qed.

(** When the notification check itself raises, the response is the
    fallback one, which carries neither [X-Error-ID] nor
    [X-Error-Type]. *)
Lemma handle_database_error_dispatch_fallback
    (self : ErrorHandlingMiddleware_state unit) (request : Request)
    (call_next : Request -> Py W Response) (w w1 : W) (t1 : list event)
    (exc e : exn) :
  self = __init__ ->
  call_next request w = (Raise exc, w1, t1) ->
  (forall ty status w2, exists w3, _should_notify ty status w2 = (Raise e, w3)) ->
  exists w' t,
    handle_database_error_dispatch _should_notify
      _create_error_notification _get_response_data self request call_next w
    = (Return fallback_response, w', t)
    /\ has_header "X-Error-ID" fallback_response = false
    /\ has_header "X-Error-Type" fallback_response = false.
Proof.
  intros -> Hnext Hnotify.
  unfold handle_database_error_dispatch.
  unfold try_except at 1, invoke, bind at 1, emit. rewrite Hnext.
  unfold try_except, bind at 1, _get_error_details.
  destruct (uuid4 w1) as [error_id w2].
  unfold client_host. destruct (client request) as [host|];
    [|unfold bind, logger_log, emit, ret; eexists _, _;
      split; [reflexivity|]; by vm_compute].
  assert (exists c, or3 (getattr_status_code exc)
             (status_codes_get (status_codes (@__init__ unit)) (type_name exc))
             (status_codes_get (status_codes (@__init__ unit)) "Exception")
           = Some c) as [c ->].
  { change (status_codes_get (status_codes (@__init__ unit)) "Exception")
      with (Some 500).
    apply or3_Some. }
  unfold bind at 1, ret at 1. unfold bind at 1, logger_log, emit.
  unfold bind at 1, call at 1.
  cbn [ed_type].
  destruct (Hnotify (type_name exc) c w2) as [w3 ->].
  eexists _, _. split; [reflexivity|]. by vm_compute.
Qed.

End LocalDispatch.

End ErrorHandlingFacts.

(** ** The database service *)
Module DatabaseFacts.
Import Database.

Section Facts.
Context {W Conn : Type} `{Redis W Conn}.

Lemma is_redis_available_total (self : DatabaseService Conn) (w : W) :
  exists b w' t, is_redis_available self w = (Return b, w', t).
Proof.
  unfold is_redis_available.
  destruct (_redis self) as [conn|]; [|by eexists _, _, _].
  unfold try_except, bind, call, ret.
  destruct (redis_ping conn w) as [[b|e] w1]; by eexists _, _, _.
Qed.

Lemma is_redis_available_ping_fails
    (self : DatabaseService Conn) (conn : Conn) (w w' : W) (e : exn) :
  _redis self = Some conn ->
  redis_ping conn w = (Raise e, w') ->
  is_redis_available self w = (Return false, w', [EvRedisPing]).
Proof.
  intros Hconn Hping. unfold is_redis_available. rewrite Hconn.
  unfold try_except, bind, call, ret. by rewrite Hping.
Qed.

Lemma init_total (w : W) :
  exists self w' t,
    __init__ w = (Return self, w', t)
    /\ (startup_fails w -> _redis self = None).
Proof.
  unfold __init__, _init_redis, startup_fails.
  unfold try_except, bind, call, ret, logger_log, emit.
  destruct (redis_Redis w) as [[conn|e] w1].
  - destruct (redis_ping conn w1) as [[b|e] w2].
    + eexists _, _, _. split; [reflexivity | tauto].
    + destruct e; eexists _, _, _; (split; [reflexivity | done]).
  - destruct e; eexists _, _, _; (split; [reflexivity | done]).
Qed.

(** C9. Constructing a [DatabaseService] never raises; when the client
    cannot be built or the first ping fails, [_redis] is [None] and
    [is_redis_available()] answers [False]; [is_redis_available()] never
    raises, and answers [False] when a later ping fails. *)
Theorem database_service_degrades_gracefully (w : W) :
  (exists self w' t,
     __init__ w = (Return self, w', t)
     /\ (startup_fails w ->
         _redis self = None
         /\ forall w2, is_redis_available self w2 = (Return false, w2, [])))
  /\ (forall (self : DatabaseService Conn) (w2 : W),
        exists b w3 t, is_redis_available self w2 = (Return b, w3, t))
  /\ (forall (self : DatabaseService Conn) (conn : Conn) (w2 w3 : W) (e : exn),
        _redis self = Some conn ->
        redis_ping conn w2 = (Raise e, w3) ->
        is_redis_available self w2 = (Return false, w3, [EvRedisPing])).
Proof.
  split; [|split].
  - destruct (init_total w) as (self & w' & t & Hinit & Hnone).
    exists self, w', t. split; [exact Hinit|].
    intros Hfail. specialize (Hnone Hfail). split; [exact Hnone|].
    intros w2. unfold is_redis_available. by rewrite Hnone.
  - apply is_redis_available_total.
  - apply is_redis_available_ping_fails.
Qed.

End Facts.

(** The service built while the server refuses connections holds no
    connection and reports the store as unavailable; a service that got
    its connection reports it unavailable once a ping is refused. *)
Lemma database_service_degrades_gracefully_witness :
  let R := Fixtures.scripted_redis in
  (exists self,
     (@__init__ _ _ R [false]).1.1 = Return self
     /\ _redis self = None
     /\ (@is_redis_available _ _ R self []).1.1 = Return false)
  /\ (@is_redis_available _ _ R {| _redis := Some tt |} [false])
     = (Return false, [], [EvRedisPing]).
Proof.
  intros R.
  destruct (@database_service_degrades_gracefully _ _ R [false])
    as [(self & w' & t & Hinit & Hfail) [_ Hlater]].
  split.
  - exists self. rewrite Hinit. split; [reflexivity|].
    destruct Hfail as [Hnone Havail]; [exact I|].
    split; [exact Hnone|]. by rewrite Havail.
  - apply (Hlater {| _redis := Some tt |} tt [false] [] (ConnectionError "Connection refused"));
      reflexivity.
Defined.

End DatabaseFacts.

(** ** The rate-limiting stage *)
Module RateLimitingFacts.
Import RateLimiting.

Lemma quiet_nil : quiet [].
Proof. constructor. Qed.

Lemma quiet_app (t1 t2 : list event) :
  quiet t1 -> quiet t2 -> quiet (t1 ++ t2)%list.
Proof. unfold quiet. rewrite Forall_app. tauto. Qed.

Lemma quiet_log (l : log_level) (m : string) : quiet [EvLog l m].
Proof. repeat constructor. Qed.

Lemma quiet_verify (tok : string) : quiet [EvVerifyToken tok].
Proof. repeat constructor. Qed.

Create HintDb quiet.
#[local] Hint Resolve quiet_nil quiet_app quiet_log quiet_verify : quiet.

Ltac run_py :=
  unfold try_except, bind, call, ret, raise, lift_outcome, logger_log, emit,
    invoke.

Section Facts.
Context {W : Type} `{Services W}.

(** [get_user_id] swallows every error: it always returns, and what it
    does is at most one token verification and one log record. *)
Lemma get_user_id_total (request : Request) (w : W) :
  exists uid w1 t1,
    get_user_id request w = (Return uid, w1, t1) /\ quiet t1.
Proof.
  unfold get_user_id.
  destruct (negb (truthy (dict_get "Authorization" (req_headers request)))
            || negb (startswith
                       (default "" (dict_get "Authorization"
                                      (req_headers request))) "Bearer ")).
  - run_py. eexists _, _, _. split; [reflexivity | auto with quiet].
  - run_py.
    destruct (index _ 1) as [token|e].
    + destruct (verify_token token w) as [[[is_valid [data|]]|e] w1].
      * destruct is_valid; simpl; eexists _, _, _;
          (split; [reflexivity | simpl; auto with quiet]).
      * eexists _, _, _. split; [reflexivity | simpl; auto with quiet].
      * eexists _, _, _. split; [reflexivity | simpl].
        repeat constructor.
    + eexists _, _, _. split; [reflexivity | simpl; auto with quiet].
Qed.

Lemma get_user_id_anonymous (request : Request) (w : W) :
  lacks_valid_bearer request w ->
  exists w1 t1, get_user_id request w = (Return None, w1, t1) /\ quiet t1.
Proof.
  unfold lacks_valid_bearer, get_user_id.
  intros [Hmissing | [Hscheme | (token & Htoken & Hverify)]].
  - rewrite Hmissing. run_py. simpl. eexists _, _. split; [reflexivity|auto with quiet].
  - rewrite Hscheme. rewrite orb_true_r. run_py.
    eexists _, _. split; [reflexivity|auto with quiet].
  - destruct (negb _ || negb _).
    + run_py. eexists _, _. split; [reflexivity|auto with quiet].
    + run_py. rewrite Htoken.
      destruct (verify_token token w) as [[[is_valid [data|]]|e] w1].
      * destruct Hverify as [-> | ?]; [|done]. simpl.
        eexists _, _. split; [reflexivity|simpl; auto with quiet].
      * eexists _, _. split; [reflexivity|simpl; auto with quiet].
      * eexists _, _. split; [reflexivity|simpl]. repeat constructor.
Qed.

Lemma quiet_no_call_next (t : list event) :
  quiet t -> Forall (fun ev => is_call_next ev = false) t.
Proof.
  unfold quiet. intros Hq. eapply Forall_impl; [exact Hq|].
  intros ev [_ Hnext]. exact Hnext.
Qed.

(** What the [except] clauses leave of an exception: an instance of
    [fastapi.HTTPException] as it is, with nothing logged; of any other
    exception one error record and the 500. *)
Lemma dispatch_except_raises (e : exn) (w : W) :
  exists e' t,
    dispatch_except e w = (Raise e', w, t) /\ quiet t
    /\ (is_HTTPException e = true -> e' = e /\ t = [])
    /\ (is_HTTPException e = false ->
        e' = internal_error /\ t = [EvLog ERROR error_message]).
Proof.
  destruct e; simpl; run_py; eexists _, _;
    (split; [reflexivity|]); (split; [auto with quiet|]);
    split; intros; try discriminate; auto.
Qed.

Lemma dispatch_except_other (e : exn) (w : W) :
  is_HTTPException e = false ->
  dispatch_except e w = (Raise internal_error, w, [EvLog ERROR error_message]).
Proof.
  intros He.
  destruct (dispatch_except_raises e w) as (e' & t & -> & _ & _ & Hother).
  by destruct (Hother He) as [-> ->].
Qed.

Lemma dispatch_except_http (e : exn) (w : W) :
  is_HTTPException e = true ->
  dispatch_except e w = (Raise e, w, []).
Proof.
  intros He.
  destruct (dispatch_except_raises e w) as (e' & t & -> & _ & Hhttp & _).
  by destruct (Hhttp He) as [-> ->].
Qed.

(** Entering [dispatch] once the identity and the client address are
    known. *)
Ltac enter_dispatch Hget Hclient :=
  unfold dispatch, dispatch_try; unfold try_except at 1, bind at 1;
  rewrite Hget; unfold client_host; rewrite Hclient;
  unfold bind at 1, lift_outcome at 1; cbv iota beta.

(** A request without client address is answered by the 500, whatever
    its path and whatever the services do: reading [request.client.host]
    raises before the exemption test. *)
Lemma dispatch_without_client
    (request : Request) (call_next : Request -> Py W Response) (w : W) :
  client request = None ->
  exists uid w1 t1,
    get_user_id request w = (Return uid, w1, t1) /\ quiet t1
    /\ dispatch request call_next w
       = (Raise internal_error, w1, (t1 ++ [EvLog ERROR error_message])%list).
Proof.
  intros Hclient.
  destruct (get_user_id_total request w) as (uid & w1 & t1 & Hget & Hq).
  exists uid, w1, t1. split; [exact Hget|]. split; [exact Hq|].
  enter_dispatch Hget Hclient.
  rewrite dispatch_except_other by done. by rewrite app_nil_r.
Qed.

(** An exempt request with a client address goes straight to the rest
    of the chain. *)
Lemma dispatch_exempt
    (request : Request) (call_next : Request -> Py W Response) (w w1 : W)
    (uid : option string) (t1 : list event) (ip : string)
    (r : outcome Response) (w2 : W) (t2 : list event) :
  startswith_any (path request) exempt_prefixes = true ->
  client request = Some ip ->
  get_user_id request w = (Return uid, w1, t1) ->
  call_next request w1 = (r, w2, t2) ->
  exists r' t3,
    dispatch request call_next w
      = (r', w2, (t1 ++ EvCallNext request :: t2 ++ t3)%list)
    /\ quiet t3
    /\ (forall response,
          r = Return response -> r' = Return response /\ t3 = [])
    /\ (forall e,
          r = Raise e ->
          if is_HTTPException e then r' = Raise e /\ t3 = []
          else r' = Raise internal_error
               /\ t3 = [EvLog ERROR error_message]).
Proof.
  intros Hexempt Hclient Hget Hnext.
  enter_dispatch Hget Hclient. rewrite Hexempt.
  unfold invoke, bind, emit. rewrite Hnext. simpl.
  destruct r as [response|e].
  - exists (Return response), []. rewrite app_nil_r.
    split; [reflexivity|]. split; [auto with quiet|].
    split; [by intros ? [= ->] | discriminate].
  - destruct (dispatch_except_raises e w2)
      as (e' & t3 & -> & Hq3 & Hhttp & Hother).
    exists (Raise e'), t3. split; [by rewrite <- app_assoc|].
    split; [exact Hq3|]. split; [discriminate|].
    intros e0 [= <-]. destruct (is_HTTPException e) eqn:He.
    + by destruct (Hhttp eq_refl) as [-> ->].
    + by destruct (Hother eq_refl) as [-> ->].
Qed.

(** Entering the counting path: the path is not exempt. *)
Ltac enter_counting Hget Hclient Hcount :=
  enter_dispatch Hget Hclient; rewrite Hcount;
  unfold bind at 1, call at 1.

(** A refused check with a complete [limit_info] raises the 429
    exception, built without headers. *)
Lemma dispatch_rejects
    (request : Request) (call_next : Request -> Py W Response) (w : W)
    (uid : option string) (w1 w2 : W) (t1 : list event) (ip : string)
    (info : dict pyval) (reset limit window : pyval) :
  startswith_any (path request) exempt_prefixes = false ->
  client request = Some ip ->
  get_user_id request w = (Return uid, w1, t1) ->
  check_rate_limit (py_or uid "anonymous") (path request) ip w1
    = (Return (false, info), w2) ->
  dict_get "reset" info = Some reset ->
  dict_get "limit" info = Some limit ->
  dict_get "window" info = Some window ->
  dispatch request call_next w
  = (Raise (too_many_requests reset limit window), w2,
     (t1 ++ [EvCheckRateLimit (py_or uid "anonymous") (path request) ip])%list).
Proof.
  intros Hcount Hclient Hget Hcheck Hreset Hlimit Hwindow.
  enter_counting Hget Hclient Hcount. rewrite Hcheck. simpl.
  unfold getitem. rewrite Hreset, Hlimit, Hwindow.
  run_py. simpl. by rewrite !app_nil_r.
Qed.

(** An allowed request is logged, then handed to the rest of the chain;
    a response of the chain comes back with the three quota headers set,
    an exception of the chain goes through the [except] clauses. *)
Lemma dispatch_allows
    (request : Request) (call_next : Request -> Py W Response) (w : W)
    (uid : option string) (w1 w2 w3 w4 : W) (t1 t4 : list event)
    (ip : string) (info : dict pyval) (limit remaining : pyval)
    (reset : string) (r : outcome Response) :
  startswith_any (path request) exempt_prefixes = false ->
  client request = Some ip ->
  get_user_id request w = (Return uid, w1, t1) ->
  check_rate_limit (py_or uid "anonymous") (path request) ip w1
    = (Return (true, info), w2) ->
  log_request (py_or uid "anonymous") (path request) ip w2
    = (Return tt, w3) ->
  call_next request w3 = (r, w4, t4) ->
  dict_get "limit" info = Some limit ->
  dict_get "remaining" info = Some remaining ->
  dict_get "reset" info = Some (VStr reset) ->
  dispatch request call_next w
  = (match r with
     | Return response =>
         Return (set_header "X-RateLimit-Reset" reset
                   (set_header "X-RateLimit-Remaining" (py_str remaining)
                      (set_header "X-RateLimit-Limit" (py_str limit)
                         response)))
     | Raise e => Raise (if is_HTTPException e then e else internal_error)
     end,
     w4,
     (t1 ++ [EvCheckRateLimit (py_or uid "anonymous") (path request) ip;
             EvLogRequest (py_or uid "anonymous") (path request) ip;
             EvCallNext request] ++ t4
         ++ match r with
            | Return _ => []
            | Raise e =>
                if is_HTTPException e then []
                else [EvLog ERROR error_message]
            end)%list).
Proof.
  intros Hcount Hclient Hget Hcheck Hlog Hnext Hlimit Hremaining Hreset.
  enter_counting Hget Hclient Hcount. rewrite Hcheck. simpl.
  unfold bind at 1, call at 1. rewrite Hlog.
  unfold bind at 1, invoke, bind at 1, emit. rewrite Hnext.
  destruct r as [response|e].
  - unfold getitem. rewrite Hlimit, Hremaining, Hreset.
    run_py. simpl. by rewrite ?app_nil_r, <- ?app_assoc.
  - destruct (is_HTTPException e) eqn:He.
    + rewrite dispatch_except_http by done.
      simpl. by rewrite ?app_nil_r, <- ?app_assoc.
    + rewrite dispatch_except_other by done.
      simpl. by rewrite <- ?app_assoc.
Qed.

(** When a call to the rate-limit service raises, the rest of the chain
    is not invoked: a [fastapi.HTTPException] leaves [dispatch] as it
    is, anything else is logged once and leaves as the 500. *)
Lemma dispatch_service_raises
    (request : Request) (call_next : Request -> Py W Response) (w : W)
    (uid : option string) (w1 w2 : W) (t1 : list event) (ip : string)
    (e : exn) :
  startswith_any (path request) exempt_prefixes = false ->
  client request = Some ip ->
  get_user_id request w = (Return uid, w1, t1) ->
  let user_id := py_or uid "anonymous" in
  let last_words :=
    if is_HTTPException e then [] else [EvLog ERROR error_message] in
  (check_rate_limit user_id (path request) ip w1 = (Raise e, w2) ->
   dispatch request call_next w
   = (Raise (if is_HTTPException e then e else internal_error), w2,
      (t1 ++ [EvCheckRateLimit user_id (path request) ip]
          ++ last_words)%list))
  /\ (forall info w1',
        check_rate_limit user_id (path request) ip w1
          = (Return (true, info), w1') ->
        log_request user_id (path request) ip w1' = (Raise e, w2) ->
        dispatch request call_next w
        = (Raise (if is_HTTPException e then e else internal_error), w2,
           (t1 ++ [EvCheckRateLimit user_id (path request) ip;
                   EvLogRequest user_id (path request) ip]
               ++ last_words)%list)).
Proof.
  intros Hcount Hclient Hget user_id last_words. subst user_id last_words.
  split.
  - intros Hcheck. enter_counting Hget Hclient Hcount. rewrite Hcheck.
    destruct (is_HTTPException e) eqn:He.
    + rewrite dispatch_except_http by done. simpl. by rewrite !app_nil_r.
    + rewrite dispatch_except_other by done. simpl.
      by rewrite <- ?app_assoc.
  - intros info w1' Hcheck Hlog.
    enter_counting Hget Hclient Hcount. rewrite Hcheck. simpl.
    unfold bind at 1, call at 1. rewrite Hlog.
    destruct (is_HTTPException e) eqn:He.
    + rewrite dispatch_except_http by done. simpl. by rewrite !app_nil_r.
    + rewrite dispatch_except_other by done. simpl.
      by rewrite <- ?app_assoc.
Qed.

(** C7, on the code. A request whose path starts with [/static/],
    [/public/] or [/health] and that carries a client address goes
    straight to the next stage: the stage itself makes no call to
    [check_rate_limit] or [log_request], the rest of the chain starts
    from the state that the identity lookup left, and a response of the
    chain comes back unchanged.  But [dispatch] reads
    [request.client.host] before it tests the path: a request without
    client address is answered by the 500 of the rate limiter, exempt
    path or not, and never reaches the next stage. *)
Theorem exempt_paths_need_a_client_address
    (request : Request) (call_next : Request -> Py W Response) (w : W) :
  startswith_any (path request) exempt_prefixes = true ->
  exists uid w1 t1,
    get_user_id request w = (Return uid, w1, t1) /\ quiet t1
    /\ match client request with
       | Some _ =>
           forall r w2 t2,
             call_next request w1 = (r, w2, t2) ->
             exists r' t3,
               dispatch request call_next w
                 = (r', w2, (t1 ++ EvCallNext request :: t2 ++ t3)%list)
               /\ quiet t3
               /\ (forall response,
                     r = Return response -> r' = Return response /\ t3 = [])
       | None =>
           dispatch request call_next w
           = (Raise internal_error, w1,
              (t1 ++ [EvLog ERROR error_message])%list)
       end.
Proof.
  intros Hexempt.
  destruct (get_user_id_total request w) as (uid & w1 & t1 & Hget & Hq).
  exists uid, w1, t1. split; [exact Hget|]. split; [exact Hq|].
  destruct (client request) as [ip|] eqn:Hclient.
  - intros r w2 t2 Hnext.
    destruct (dispatch_exempt request call_next w w1 uid t1 ip r w2 t2
                Hexempt Hclient Hget Hnext)
      as (r' & t3 & Hd & Hq3 & Hresp & _).
    by exists r', t3.
  - destruct (dispatch_without_client request call_next w Hclient)
      as (uid' & w1' & t1' & Hget' & _ & Hd).
    rewrite Hget in Hget'. by injection Hget' as -> -> ->.
Qed.

(** [handle_exceeded_rate_limit] returns no response: a [limit_info]
    without [reset], [limit] or [window] raises [KeyError], and with
    them the dict given as [content] cannot be rendered. *)
Lemma handle_exceeded_rate_limit_raises
    (request : Request) (limit_info : dict pyval) (w : W) :
  exists e,
    handle_exceeded_rate_limit request limit_info w = (Raise e, w, []).
Proof.
  unfold handle_exceeded_rate_limit, getitem.
  destruct (dict_get "reset" limit_info);
    [destruct (dict_get "limit" limit_info);
     [destruct (dict_get "window" limit_info)|]|];
    run_py; simpl; by eexists.
Qed.

End Facts.

(** [GET /health] on a connection without client address: the stage
    raises its 500 after one error record, and the rest of the chain is
    not invoked. *)
Lemma exempt_paths_need_a_client_address_witness :
  @dispatch unit Fixtures.unreachable_store (Fixtures.clientless "/health")
    Fixtures.ok_next tt
  = (Raise internal_error, tt, [EvLog ERROR error_message]).
Proof.
  destruct (@exempt_paths_need_a_client_address unit
              Fixtures.unreachable_store (Fixtures.clientless "/health")
              Fixtures.ok_next tt eq_refl)
    as (uid & w1 & t1 & Hget & _ & Hd).
  injection Hget as <- <- <-. exact Hd.
Defined.

(** C6, on the code. A refused [GET /orders] leaves [dispatch] as the
    exception [HTTPException(429, detail={error, reset, limit,
    remaining: 0, retry_after})], raised without headers: the response
    made of it by [handle_http_exception] has status 429 and the fields
    under ["detail"], and no [Retry-After] header.  The one function
    that names the header, [handle_exceeded_rate_limit], builds no
    response either: on this [limit_info], as on every other, it
    raises. *)
Theorem rejection_carries_no_retry_after :
  let rejection :=
    HTTPException 429
      (JObj [("error", JStr "Too Many Requests");
             ("reset", JStr "2025-06-03T12:45:44");
             ("limit", JInt 3);
             ("remaining", JInt 0);
             ("retry_after", JInt 60)])
      None in
  @dispatch unit Fixtures.exhausted_quota Fixtures.orders_request
    Fixtures.ok_next tt
  = (Raise rejection, tt, [EvCheckRateLimit "anonymous" "/orders" "10.0.0.7"])
  /\ (exists response t,
        @ErrorHandling.handle_http_exception unit Fixtures.orders_request
          rejection tt = (Return response, tt, t)
        /\ status_code response = 429
        /\ json_keys (content response) = ["detail"]
        /\ has_header "Retry-After" response = false)
  /\ @handle_exceeded_rate_limit unit Fixtures.orders_request
       Fixtures.exhausted_info tt
     = (Raise (AttributeError "'dict' object has no attribute 'encode'"),
        tt, [])
  /\ (forall (W : Type) (request : Request) (limit_info : dict pyval)
             (w : W),
        returns (handle_exceeded_rate_limit request limit_info w).1.1
        = false).
Proof.
  intros rejection. split; [|split; [|split]].
  - apply (@dispatch_rejects unit Fixtures.exhausted_quota
             Fixtures.orders_request Fixtures.ok_next tt None tt tt []
             "10.0.0.7" Fixtures.exhausted_info (VStr "2025-06-03T12:45:44")
             (VInt 3) (VInt 60)); reflexivity.
  - eexists _, _. split; [reflexivity|]. by vm_compute.
  - reflexivity.
  - intros W request limit_info w.
    destruct (@handle_exceeded_rate_limit_raises W request limit_info w)
      as [e ->].
    reflexivity.
Qed.


End RateLimitingFacts.

(** ** The order of the stages *)
Module PipelineFacts.
Import Pipeline.

(** Registering a class puts it in front of the ones registered before. *)
Lemma add_middleware_prepends (cls : middleware_class) (app : App) :
  started app = false ->
  exists app',
    add_middleware cls app = (Return tt, app', [])
    /\ user_middleware app' = cls :: user_middleware app
    /\ started app' = false.
Proof.
  intros Hfresh. unfold add_middleware. rewrite Hfresh.
  eexists. split; [reflexivity|]. split; reflexivity.
Qed.

(** Whatever the stages do, a request enters the built stack at the
    first class of [user_middleware]. *)
Lemma stack_enters_at_head {W : Type}
    (stage : middleware_class -> Request ->
             (Request -> Py W Response) -> Py W Response)
    (app : App) (cls : middleware_class) (rest : list middleware_class)
    (router : Request -> Py W Response) (request : Request) (w : W) :
  user_middleware app = cls :: rest ->
  exists t, (build_middleware_stack stage app router request w).2
            = EvEnter cls :: t.
Proof.
  intros Hum. unfold build_middleware_stack. rewrite Hum. simpl.
  unfold bind, emit.
  destruct (stage cls request _ w) as [[r w'] t]. by exists t.
Qed.

(** When every stage hands the request on, the stages are entered in the
    order of [user_middleware]. *)
Lemma pass_through_enters_in_order {W : Type}
    (l : list middleware_class) (s : bool)
    (router : Request -> Py W Response) (request : Request) (w : W) :
  entered (build_middleware_stack pass_through
             {| user_middleware := l; started := s |} router request w).2
  = (l ++ entered (router request w).2)%list.
Proof.
  unfold build_middleware_stack. simpl.
  induction l as [|cls l IH]; simpl; [reflexivity|].
  unfold bind, emit, pass_through at 1.
  destruct (foldr _ router l request w) as [[r w'] t] eqn:Hrun.
  simpl in *. by rewrite IH.
Qed.

(** C2, on the code. [setup_middleware] registers the classes in the
    documented order, metrics first and authentication last; as each
    registration goes in front of the earlier ones, the stack that
    serves the requests is in the opposite order: every request enters
    at the authentication stage, whatever the stages do, and reaches the
    metrics stage last. *)
Theorem requests_enter_at_authentication :
  exists app t,
    setup_middleware fresh_app = (Return tt, app, t)
    /\ user_middleware app = rev documented_order
    /\ (forall (W : Type)
              (stage : middleware_class -> Request ->
                       (Request -> Py W Response) -> Py W Response)
              (router : Request -> Py W Response)
              (request : Request) (w : W),
         exists t',
           (build_middleware_stack stage app router request w).2
           = EvEnter AuthMiddleware :: t')
    /\ (forall (W : Type) (request : Request) (w : W),
         entered (build_middleware_stack pass_through app
                    (fun _ => ret (JSONResponse 200 (JObj []))) request w).2
         = [AuthMiddleware; CacheMiddleware; RateLimitMiddleware;
            ErrorHandlingMiddleware; CompressionMiddleware;
            ValidationMiddleware; SecurityMiddleware; LoggingMiddleware;
            MetricsMiddleware])
    /\ rev documented_order <> documented_order.
Proof.
  eexists _, _. split; [reflexivity|]. split; [reflexivity|].
  split; [|split].
  - intros W stage router request w.
    eapply stack_enters_at_head. reflexivity.
  - intros W request w.
    rewrite (pass_through_enters_in_order (rev documented_order) false).
    reflexivity.
  - discriminate.
Qed.

End PipelineFacts.

(** ** Escalation of repeated errors *)
Module ErrorAggregationFacts.
Import ErrorHandling ErrorAggregation.
#[local] Open Scope list_scope.

Section Window.
Variables (W T : Z) (N : gset Z).
Hypothesis W_nonneg : 0 <= W.

#[local] Abbreviation obs := (ErrorAggregation.obs W T N).
#[local] Abbreviation answers := (ErrorAggregation.answers W T N).
#[local] Abbreviation after := (ErrorAggregation.after W T N).
#[local] Abbreviation window_inv := (ErrorAggregation.window_inv W T N).

Lemma answers_app (st : window_state) (l1 l2 : list (Z * Z)) :
  answers st (l1 ++ l2) = (answers st l1 ++ answers (after st l1) l2)%list.
Proof.
  revert st. induction l1 as [|e l1 IH]; intros st; simpl; [done|].
  by rewrite IH.
Qed.

Lemma answers_length (st : window_state) (l : list (Z * Z)) :
  length (answers st l) = length l.
Proof. revert st. induction l as [|e l IH]; intros st; simpl; auto. Qed.

Lemma after_snoc (st : window_state) (l : list (Z * Z)) (e : Z * Z) :
  after st (l ++ [e]) = (obs e (after st l)).1.
Proof. unfold after. by rewrite foldl_app. Qed.

Lemma answers_snoc_lookup (st : window_state) (l : list (Z * Z)) (e : Z * Z) :
  answers st (l ++ [e]) !! length l = Some (obs e (after st l)).2.
Proof.
  rewrite answers_app. rewrite lookup_app_r; rewrite answers_length; [|lia].
  by rewrite Nat.sub_diag.
Qed.

Lemma answers_prefix_lookup (st : window_state) (l1 l2 : list (Z * Z)) (j : nat) :
  (j < length l1)%nat -> answers st (l1 ++ l2) !! j = answers st l1 !! j.
Proof.
  intros Hj. rewrite answers_app. apply lookup_app_l.
  by rewrite answers_length.
Qed.

Lemma length_filter_fst (P : Z -> Prop) `{!forall t, Decision (P t)}
    (l : list (Z * Z)) :
  length (filter P l.*1) = length (filter (fun e : Z * Z => P e.1) l).
Proof.
  induction l as [|e l IH]; [done|]. rewrite fmap_cons, !filter_cons.
  destruct (decide (P e.1)); simpl; by rewrite IH.
Qed.

Lemma chronological_snoc (l : list (Z * Z)) (e : Z * Z) :
  chronological (l ++ [e]) ->
  chronological l /\ forall j tj sj, l !! j = Some (tj, sj) -> tj <= e.1.
Proof.
  intros Hc. split.
  - intros i j ti tj si sj Hij Hi Hj.
    apply (Hc i j ti tj si sj Hij).
    + rewrite lookup_app_l; [done|]. by eapply lookup_lt_Some.
    + rewrite lookup_app_l; [done|]. by eapply lookup_lt_Some.
  - intros j tj sj Hj. destruct e as [t s].
    apply (Hc j (length l) tj t sj s).
    + apply Nat.lt_le_incl. by eapply lookup_lt_Some.
    + rewrite lookup_app_l; [done|]. by eapply lookup_lt_Some.
    + by rewrite list_lookup_middle.
Qed.

Lemma window_inv_after (l : list (Z * Z)) :
  chronological l -> window_inv l (after empty_window l).
Proof.
  induction l as [|[t s] l IH] using rev_ind; intros Hc.
  - split; [done|]. simpl. intros j. by rewrite lookup_nil.
  - apply chronological_snoc in Hc as [Hc Hle]. simpl in Hle.
    specialize (IH Hc) as [Hrec Hlast].
    rewrite after_snoc. unfold obs at 1, observe. simpl.
    set (due := _ && _ && _).
    assert ((obs (t, s) (after empty_window l)).2 = due) as Hdue
      by reflexivity.
    split.
    + intros now Hnow. simpl.
      assert (t <= now) as Htnow.
      { apply (Hnow (length l) t s). by rewrite list_lookup_middle. }
      unfold evict in *. rewrite filter_app, fmap_app, filter_app.
      rewrite list_filter_filter_l by (intros x; lia).
      f_equal. apply Hrec. intros j tj sj Hj.
      etrans; [by eapply Hle|done].
    + simpl. destruct due eqn:Hd.
      * split.
        -- exists (length l), s. split; [by rewrite list_lookup_middle|].
           rewrite answers_snoc_lookup. by rewrite Hdue.
        -- intros j tj sj Hj _.
           apply lookup_snoc_Some in Hj as [[_ Hj] | [_ [= -> _]]]; [|lia].
           by eapply Hle.
      * destruct (last_crossing (after empty_window l)) as [t0|].
        -- destruct Hlast as [(j & s' & Hj & Hans) Hmax]. split.
           ++ exists j, s'. split.
              ** rewrite lookup_app_l; [done|]. by eapply lookup_lt_Some.
              ** rewrite answers_prefix_lookup; [done|]. by eapply lookup_lt_Some.
           ++ intros j' tj sj Hj' Hans'.
              apply lookup_snoc_Some in Hj' as [[Hlt Hj'] | [-> [= -> ->]]].
              ** apply (Hmax j' tj sj Hj').
                 by rewrite answers_prefix_lookup in Hans'.
              ** rewrite answers_snoc_lookup, Hdue in Hans'. done.
        -- intros j Hans.
           destruct (decide (j < length l)%nat) as [Hlt|Hge].
           ++ rewrite answers_prefix_lookup in Hans by done. by apply (Hlast j).
           ++ assert (j = length l) as ->.
              { apply lookup_lt_Some in Hans.
                rewrite answers_length, length_app in Hans. simpl in Hans. lia. }
              rewrite answers_snoc_lookup, Hdue in Hans. done.
Qed.

(** The answer to one more error, in terms of the errors alone. *)
Lemma obs_due_iff (l : list (Z * Z)) (now status : Z) :
  chronological (l ++ [(now, status)]) ->
  (obs (now, status) (after empty_window l)).2 = true
  <-> T <= Z.of_nat (length (filter (fun e : Z * Z => now - e.1 <= W)
                               (l ++ [(now, status)])))
      /\ status ∈ N
      /\ forall j tj sj,
           l !! j = Some (tj, sj) ->
           answers empty_window l !! j = Some true -> W < now - tj.
Proof.
  intros Hc. apply chronological_snoc in Hc as [Hc Hle]. simpl in Hle.
  destruct (window_inv_after l Hc) as [Hrec Hlast].
  unfold obs, observe. simpl.
  rewrite (Hrec now Hle), length_app, length_filter_fst. simpl.
  rewrite filter_app, length_app.
  rewrite (filter_cons_True _ (now, status)) by (simpl; lia). simpl.
  rewrite !andb_true_iff, !bool_decide_eq_true.
  split.
  - intros [[Hcount Hstatus] Hroll]. split; [done|]. split; [done|].
    intros j tj sj Hj Hans.
    destruct (last_crossing _) as [t0|].
    + destruct Hlast as [_ Hmax]. apply bool_decide_eq_true in Hroll.
      specialize (Hmax j tj sj Hj Hans). lia.
    + by destruct (Hlast j).
  - intros (Hcount & Hstatus & Hroll). split; [done|].
    destruct (last_crossing _) as [t0|]; [|done].
    destruct Hlast as [(j & s' & Hj & Hans) _].
    apply bool_decide_eq_true. by eapply Hroll.
Qed.

Lemma answers_lookup (st : window_state) (errors : list (Z * Z))
    (i : nat) (e : Z * Z) :
  errors !! i = Some e ->
  answers st errors !! i = Some (obs e (after st (take i errors))).2.
Proof.
  revert st i. induction errors as [|e0 r IH]; intros st [|i] Hi; try done.
  - by injection Hi as ->.
  - simpl in *. by rewrite (IH _ _ Hi).
Qed.

Lemma answers_take_lookup (st : window_state) (errors : list (Z * Z))
    (i j : nat) :
  (j < i)%nat -> (j < length errors)%nat ->
  answers st (take i errors) !! j = answers st errors !! j.
Proof.
  intros Hji Hj. symmetry.
  transitivity (answers st (take i errors ++ drop i errors) !! j).
  { by rewrite take_drop. }
  apply answers_prefix_lookup. rewrite length_take. lia.
Qed.

Lemma chronological_take (errors : list (Z * Z)) (n : nat) :
  chronological errors -> chronological (take n errors).
Proof.
  intros Hc i j ti tj si sj Hij Hi Hj.
  apply lookup_take_Some in Hi as [Hi _], Hj as [Hj _].
  by eapply (Hc i j).
Qed.

(** The answers along a chronological sequence, by position. *)
Lemma answers_due_iff (errors : list (Z * Z)) (i : nat) (now status : Z) :
  chronological errors ->
  errors !! i = Some (now, status) ->
  answers empty_window errors !! i = Some true
  <-> T <= count_in_window W errors i now
      /\ status ∈ N
      /\ forall j tj sj,
           (j < i)%nat -> errors !! j = Some (tj, sj) ->
           answers empty_window errors !! j = Some true -> W < now - tj.
Proof.
  intros Hc Hi. rewrite (answers_lookup _ _ _ _ Hi).
  assert (take (S i) errors = take i errors ++ [(now, status)]) as Htake
    by by apply take_S_r.
  assert (chronological (take i errors ++ [(now, status)])) as Hc'.
  { rewrite <- Htake. by apply chronological_take. }
  unfold count_in_window. rewrite Htake.
  split.
  - intros [= Hdue]. apply (obs_due_iff _ _ _ Hc') in Hdue
      as (Hcount & Hstatus & Hroll).
    split; [done|]. split; [done|]. intros j tj sj Hji Hj Hans.
    apply (Hroll j tj sj).
    + by apply lookup_take_Some.
    + rewrite answers_take_lookup; [done..|]. by eapply lookup_lt_Some.
  - intros (Hcount & Hstatus & Hroll). f_equal.
    apply (obs_due_iff _ _ _ Hc'). split; [done|]. split; [done|].
    intros j tj sj Hj Hans. apply lookup_take_Some in Hj as [Hj Hji].
    apply (Hroll j tj sj Hji Hj).
    rewrite <- (answers_take_lookup _ _ i); [done..|]. by eapply lookup_lt_Some.
Qed.

End Window.

(** The engine on the middleware object agrees with the engine on the
    records of the type. *)
Lemma record_all_answers (self : ErrorHandlingMiddleware_state window_state)
    (error_type : string) (errors : list (Z * Z)) :
  record_all self error_type errors
  = answers (ERROR_AGGREGATION_WINDOW self)
      (ERROR_NOTIFICATION_THRESHOLD self) (NOTIFY_ON_STATUS self)
      (default empty_window (error_counts self !! error_type)) errors.
Proof.
  revert self. induction errors as [|[now status] rest IH]; intros self;
    [done|].
  simpl. unfold _should_notify, obs. simpl.
  rewrite IH. simpl. by rewrite lookup_insert_eq.
Qed.

(** C5. Along every chronological sequence of errors of one type, a
    notification is emitted at an error exactly when the errors of the
    trailing 300 seconds, this one included, number at least 5, its
    status code is 500 or 503, and every earlier notification lies more
    than 300 seconds back.  So the crossing of the threshold emits one
    notification, the further errors of the same window emit none, and
    the next one waits until the window has rolled past the crossing and
    the threshold is met again. *)
Theorem one_notification_per_threshold_crossing
    (error_type : string) (errors : list (Z * Z)) :
  chronological errors ->
  let notified := record_all __init__ error_type errors in
  length notified = length errors
  /\ forall i now status,
       errors !! i = Some (now, status) ->
       (notified !! i = Some true
        <-> 5 <= count_in_window 300 errors i now
            /\ status ∈ ({[500; 503]} : gset Z)
            /\ forall j tj sj,
                 (j < i)%nat -> errors !! j = Some (tj, sj) ->
                 notified !! j = Some true -> 300 < now - tj).
Proof.
  intros Hc notified. subst notified. rewrite record_all_answers. simpl.
  rewrite lookup_empty. simpl. split; [apply answers_length|].
  intros i now status Hi. by apply answers_due_iff.
Qed.

Lemma chronologicalb_sound (errors : list (Z * Z)) :
  chronologicalb errors = true -> chronological errors.
Proof.
  induction errors as [|e rest IH]; intros Hb i j ti tj si sj Hij Hi Hj.
  - by rewrite lookup_nil in Hi.
  - simpl in Hb. apply andb_true_iff in Hb as [Hhead Hrest].
    destruct i as [|i], j as [|j]; simpl in *.
    + injection Hi as ->. injection Hj as [= ->]. lia.
    + injection Hi as ->. rewrite forallb_forall in Hhead.
      apply list_elem_of_lookup_2, list_elem_of_In in Hj.
      specialize (Hhead _ Hj). simpl in Hhead. lia.
    + lia.
    + apply (IH Hrest i j ti tj si sj); [lia|done..].
Qed.

(** The two bursts: of the first six errors only the fifth notifies; the
    burst after the window notifies again at its fifth error. *)
Example two_bursts_notifications :
  record_all __init__ "RuntimeError" Fixtures.two_bursts
  = [false; false; false; false; true; false;
     false; false; false; false; true].
Proof. vm_compute. reflexivity. Qed.

(** The fifth error of the first burst crosses the threshold and is
    notified; the sixth, in the same window, is not. *)
Lemma one_notification_per_threshold_crossing_witness :
  chronological Fixtures.two_bursts
  /\ record_all __init__ "RuntimeError" Fixtures.two_bursts !! 4%nat
     = Some true
  /\ record_all __init__ "RuntimeError" Fixtures.two_bursts !! 5%nat
     <> Some true.
Proof.
  assert (chronological Fixtures.two_bursts) as Hc
    by (apply chronologicalb_sound; vm_compute; reflexivity).
  destruct (one_notification_per_threshold_crossing "RuntimeError"
              Fixtures.two_bursts Hc) as [_ Hiff].
  split; [exact Hc|]. split.
  - apply (Hiff 4%nat 40 500 eq_refl). split; [by vm_compute|].
    split; [set_solver|].
    intros j tj sj Hj Hlook Hans.
    do 4 (destruct j as [|j]; [by vm_compute in Hans|]). lia.
  - intros Hans. apply (Hiff 5%nat 50 500 eq_refl) in Hans as (_ & _ & Hroll).
    specialize (Hroll 4%nat 40 500). 
    assert (300 < 50 - 40); [|lia].
    apply Hroll; [lia | reflexivity | by vm_compute].
Defined.

End ErrorAggregationFacts.

(** ** The fixed-window engine under [dispatch] *)
Module FixedWindowFacts.
Import RateLimiting FixedWindow.
#[local] Open Scope list_scope.
#[local] Open Scope nat_scope.

Lemma count_insert_eq (m : gmap string nat) (key : string) (n : nat)
    (a : bool) (l : list string) :
  count {| available := a; counters := <[key := n]> m; service_log := l |}
    key = n.
Proof. unfold count. simpl. by rewrite lookup_insert_eq. Qed.

Lemma count_insert_ne (m : gmap string nat) (key k : string) (n : nat)
    (a a' : bool) (l l' : list string) :
  k <> key ->
  count {| available := a; counters := <[key := n]> m; service_log := l |} k
  = count {| available := a'; counters := m; service_log := l' |} k.
Proof. intros Hk. unfold count. simpl. by rewrite lookup_insert_ne. Qed.

Lemma total_cons (w : flight -> nat) (f : flight) (fs : list flight) :
  total w (f :: fs) = w f + total w fs.
Proof. reflexivity. Qed.

Lemma total_insert (w : flight -> nat) (fs : list flight) (i : nat)
    (f f' : flight) :
  fs !! i = Some f ->
  total w (<[i := f']> fs) + w f = total w fs + w f'.
Proof.
  revert i. induction fs as [|x fs IH]; intros [|i] Hi; try done.
  - injection Hi as ->. simpl. rewrite !total_cons. lia.
  - specialize (IH i Hi). simpl. rewrite !total_cons. lia.
Qed.

Lemma total_ready (w : flight -> nat) (fs : list flight) :
  (forall f, f_phase f = Ready -> w f = 0) ->
  all_ready fs -> total w fs = 0.
Proof.
  intros Hw. induction 1 as [|f fs Hf _ IH]; [done|].
  by rewrite total_cons, IH, Hw.
Qed.

Section Engine.
Variable cfg : config.

(** The engine on a reachable store, spelled out. *)
Lemma check_available (user_id endpoint ip_address : string) (s : store) :
  available s = true ->
  let key := get_rate_limit_key user_id endpoint ip_address in
  check cfg user_id endpoint ip_address s
  = (Return (bool_decide (S (count s key) <= limit cfg),
             limit_info cfg (S (count s key))),
     {| available := true;
        counters := <[key := S (count s key)]> (counters s);
        service_log := service_log s |}).
Proof. intros Ha. unfold check. by rewrite Ha. Qed.

Lemma check_unavailable (user_id endpoint ip_address : string) (s : store) :
  available s = false ->
  check cfg user_id endpoint ip_address s
  = (Return (true, limit_info cfg 0),
     {| available := false;
        counters := counters s;
        service_log := service_log s ++ [degradation] |}).
Proof. intros Ha. unfold check. by rewrite Ha. Qed.

(** The two awaits of a request that starts on a reachable store. *)
Lemma step_ready (f : flight) (s : store) :
  f_phase f = Ready ->
  available s = true ->
  let c := S (count s (flight_key f)) in
  step cfg f s
  = (set_phase f (if bool_decide (c <= limit cfg)
                  then Allowed c else Finished false c),
     {| available := true;
        counters := <[flight_key f := c]> (counters s);
        service_log := service_log s |}).
Proof.
  intros Hph Ha. cbv zeta. unfold step. rewrite Hph.
  rewrite check_available by done. cbv zeta. fold (flight_key f).
  destruct (bool_decide _); cbn [fst snd]; by rewrite count_insert_eq.
Qed.

Lemma run_alone_ready (f : flight) (s : store) :
  f_phase f = Ready ->
  available s = true ->
  let c := S (count s (flight_key f)) in
  run_alone cfg f s
  = (set_phase f (Finished (bool_decide (c <= limit cfg)) c),
     {| available := true;
        counters := <[flight_key f := c]> (counters s);
        service_log := service_log s |}).
Proof.
  intros Hph Ha. cbv zeta. unfold run_alone.
  rewrite step_ready by done. cbv zeta.
  destruct (bool_decide _); reflexivity.
Qed.

(** Starting state of a run. *)
Lemma serialized_start (s : store) (flights : list flight) :
  available s = true -> all_ready flights ->
  serialized cfg s s flights.
Proof.
  intros Ha Hready. unfold serialized.
  split; [exact Ha|]. split; [|split; [|split]].
  - intros key. rewrite (total_ready (checked_on key)); [lia|..|done].
    intros f Hf. unfold checked_on. by rewrite Hf.
  - intros key. rewrite (total_ready (allowed_on key)); [lia|..|done].
    intros f Hf. unfold allowed_on, let_through. by rewrite Hf.
  - intros i f n Hi Hseen.
    apply (Forall_lookup_1 _ _ _ _ Hready) in Hi.
    unfold seen_count in Hseen. by rewrite Hi in Hseen.
  - intros i j f g n _ Hi _ _ Hseen.
    apply (Forall_lookup_1 _ _ _ _ Hready) in Hi.
    unfold seen_count in Hseen. by rewrite Hi in Hseen.
Qed.

(** A request that changes phase without a new check leaves the
    invariant as it is. *)
Lemma serialized_relabel (s0 s : store) (flights : list flight) (i : nat)
    (f f' : flight) :
  flights !! i = Some f ->
  flight_key f' = flight_key f ->
  seen_count f' = seen_count f ->
  let_through f' = let_through f ->
  (forall key, checked_on key f' = checked_on key f) ->
  serialized cfg s0 s flights ->
  serialized cfg s0 s (<[i := f']> flights).
Proof.
  intros Hi Hkey Hseen' Hlet Hchecked
    (Ha & Hcount & Hallowed & Hseen & Hdistinct).
  assert (forall key, allowed_on key f' = allowed_on key f) as Hallowed'.
  { intros key. unfold allowed_on. by rewrite Hlet, Hkey. }
  split; [exact Ha|]. split; [|split; [|split]].
  - intros key. pose proof (total_insert (checked_on key) _ _ _ f' Hi) as Ht.
    rewrite Hchecked in Ht. rewrite Hcount. lia.
  - intros key. pose proof (total_insert (allowed_on key) _ _ _ f' Hi) as Ht.
    rewrite Hallowed' in Ht. specialize (Hallowed key). lia.
  - intros j g n Hj Hg.
    apply list_lookup_insert_Some in Hj as [(<- & <- & _) | [_ Hj]].
    + rewrite Hkey, Hlet. apply (Hseen i f n Hi). by rewrite <- Hseen'.
    + by apply (Hseen j g n).
  - intros j k g h n Hjk Hj Hk Hgh Hg.
    apply list_lookup_insert_Some in Hj as [(<- & <- & _) | [Hij Hj]];
      apply list_lookup_insert_Some in Hk as [(<- & <- & _) | [Hik Hk]];
      try done.
    + apply (Hdistinct i k f h n); try done; congruence.
    + rewrite Hseen'. apply (Hdistinct j i g f n); try done; congruence.
    + by apply (Hdistinct j k g h n).
Qed.

(** The check of a request that was waiting: its key's counter goes up
    by one, and the request sees the new count. *)
Lemma serialized_check (s0 s : store) (flights : list flight) (i : nat)
    (f f' : flight) :
  flights !! i = Some f ->
  f_phase f = Ready ->
  flight_key f' = flight_key f ->
  seen_count f' = Some (S (count s (flight_key f))) ->
  let_through f' = bool_decide (S (count s (flight_key f)) <= limit cfg) ->
  serialized cfg s0 s flights ->
  serialized cfg s0
    {| available := true;
       counters := <[flight_key f := S (count s (flight_key f))]> (counters s);
       service_log := service_log s |}
    (<[i := f']> flights).
Proof.
  intros Hi Hready Hkey Hseen' Hlet
    (Ha & Hcount & Hallowed & Hseen & Hdistinct).
  set (key := flight_key f) in *. set (c := S (count s key)) in *.
  set (s' := {| available := true;
                counters := <[key := c]> (counters s);
                service_log := service_log s |}).
  assert (count s' key = c) as Hc by apply count_insert_eq.
  assert (forall k, k <> key -> count s' k = count s k) as Hother.
  { intros k Hk. destruct s as [a m l]. by apply count_insert_ne. }
  assert (forall k, count s k <= count s' k) as Hmono.
  { intros k. destruct (decide (k = key)) as [->|Hk];
      [rewrite Hc; unfold c; lia | by rewrite Hother]. }
  assert (forall k, checked_on k f = 0) as Hf0.
  { intros k. unfold checked_on. by rewrite Hready. }
  assert (forall k, allowed_on k f = 0) as Hf0'.
  { intros k. unfold allowed_on, let_through. by rewrite Hready. }
  assert (forall k, checked_on k f' = if decide (key = k) then 1 else 0)
    as Hf1.
  { intros k. unfold checked_on. rewrite Hkey.
    destruct (f_phase f') eqn:Hph; [|done..].
    unfold seen_count in Hseen'. by rewrite Hph in Hseen'. }
  assert (forall k, allowed_on k f'
                    = if bool_decide (c <= limit cfg)
                      then if decide (key = k) then 1 else 0 else 0)
    as Hf1'.
  { intros k. unfold allowed_on. by rewrite Hlet, Hkey. }
  split; [done|]. split; [|split; [|split]].
  - intros k. pose proof (total_insert (checked_on k) _ _ _ f' Hi) as Ht.
    rewrite Hf0, Hf1 in Ht. specialize (Hcount k).
    destruct (decide (key = k)) as [<-|Hk].
    + rewrite Hc. unfold c. lia.
    + rewrite Hother by done. lia.
  - intros k. pose proof (total_insert (allowed_on k) _ _ _ f' Hi) as Ht.
    rewrite Hf0', Hf1' in Ht. specialize (Hallowed k).
    pose proof (Hcount k) as Hck. pose proof (Hmono k) as Hmk.
    case_bool_decide as Hb; [destruct (decide (key = k)) as [<-|Hk]|].
    + rewrite Hc. unfold c in *. lia.
    + rewrite Hother by done. lia.
    + lia.
  - intros j g n Hj Hg.
    apply list_lookup_insert_Some in Hj as [(<- & <- & _) | [_ Hj]].
    + rewrite Hkey, Hlet. fold key. rewrite Hg in Hseen'.
      injection Hseen' as ->. fold c. rewrite Hc.
      pose proof (Hcount key). split; [unfold c; lia | done].
    + destruct (Hseen j g n Hj Hg) as [[Hlo Hhi] Hthrough].
      split; [|done]. split; [done|].
      pose proof (Hmono (flight_key g)). lia.
  - intros j k g h n Hjk Hj Hk Hgh Hg Hh.
    apply list_lookup_insert_Some in Hj as [(<- & <- & _) | [Hij Hj]];
      apply list_lookup_insert_Some in Hk as [(<- & <- & _) | [Hik Hk]];
      try done.
    + rewrite Hg in Hseen'. injection Hseen' as ->.
      destruct (Hseen k h _ Hk Hh) as [[_ Hhi] _].
      rewrite <- Hgh, Hkey in Hhi. fold key in Hhi. lia.
    + rewrite Hh in Hseen'. injection Hseen' as ->.
      destruct (Hseen j g _ Hj Hg) as [[_ Hhi] _].
      rewrite Hgh, Hkey in Hhi. fold key in Hhi. lia.
    + by apply (Hdistinct j k g h n).
Qed.

(** One await of one request keeps the invariant. *)
Lemma step_serialized (s0 s : store) (flights : list flight) (i : nat)
    (f : flight) :
  flights !! i = Some f ->
  serialized cfg s0 s flights ->
  serialized cfg s0 (step cfg f s).2 (<[i := (step cfg f s).1]> flights).
Proof.
  intros Hi Hinv. pose proof Hinv as (Ha & _).
  unfold step. destruct (f_phase f) as [|n|b n] eqn:Hph.
  - rewrite check_available by done. cbv zeta.
    fold (flight_key f).
    destruct (bool_decide (S (count s (flight_key f)) <= limit cfg)) eqn:Hb;
      cbn [fst snd];
      (apply serialized_check;
       [done | done | done
       | unfold seen_count; simpl; by rewrite count_insert_eq
       | unfold let_through; simpl; by rewrite Hb
       | done]).
  - unfold log. cbn [fst snd].
    apply (serialized_relabel s0 s flights i f); try done.
    + unfold seen_count. simpl. by rewrite Hph.
    + unfold let_through. simpl. by rewrite Hph.
    + intros key. unfold checked_on. simpl. by rewrite Hph.
  - cbn [fst snd]. by rewrite list_insert_id.
Qed.

(** Every schedule keeps it. *)
Lemma run_schedule_serialized (schedule : list nat) (s0 s : store)
    (flights : list flight) :
  serialized cfg s0 s flights ->
  serialized cfg s0 (run_schedule cfg schedule s flights).1
    (run_schedule cfg schedule s flights).2.
Proof.
  revert s flights. induction schedule as [|i rest IH]; intros s flights Hinv;
    [done|].
  simpl. destruct (flights !! i) as [f|] eqn:Hi; [|by apply IH].
  pose proof (step_serialized s0 s flights i f Hi Hinv) as Hstep.
  destruct (step cfg f s) as [f' s']. by apply IH.
Qed.

Variable auth : string -> outcome (bool * option TokenData).

#[local] Abbreviation engine := (services cfg auth).

(** Looking up the identity leaves the store alone. *)
Lemma get_user_id_keeps_store (request : Request) (s : store) :
  exists uid t1,
    @get_user_id store engine request s = (Return uid, s, t1)
    /\ quiet t1
    /\ (@lacks_valid_bearer store engine request s -> uid = None).
Proof.
  assert ((@get_user_id store engine request s).1.2 = s) as Hs.
  { unfold get_user_id.
    destruct (negb (truthy (dict_get "Authorization" (req_headers request)))
              || negb (startswith
                         (default "" (dict_get "Authorization"
                                        (req_headers request))) "Bearer ")).
    - reflexivity.
    - RateLimitingFacts.run_py. destruct (index _ 1) as [token|e]; [|done].
      simpl. unfold verify.
      destruct (auth token) as [[is_valid [data|]]|e]; [|done..].
      by destruct is_valid. }
  destruct (@RateLimitingFacts.get_user_id_total store engine request s)
    as (uid & s1 & t1 & Hget & Hq).
  rewrite Hget in Hs. simpl in Hs. subst s1.
  exists uid, t1. split; [exact Hget|]. split; [exact Hq|].
  intros Hanon.
  destruct (@RateLimitingFacts.get_user_id_anonymous store engine request s
              Hanon) as (s1 & t1' & Hget' & _).
  rewrite Hget in Hget'. by injection Hget' as ->.
Qed.

(** What [dispatch] hands back for an outcome [r] of the rest of the
    chain, once a check that saw the count [c] has let the request
    through. *)
Lemma dispatch_lets_through (request : Request)
    (call_next : Request -> Py store Response) (s s1 s2 : store)
    (uid : option string) (t1 t2 : list event) (ip : string) (c : nat)
    (r : outcome Response) :
  client request = Some ip ->
  startswith_any (path request) exempt_prefixes = false ->
  @get_user_id store engine request s = (Return uid, s, t1) ->
  check cfg (py_or uid "anonymous") (path request) ip s
    = (Return (true, limit_info cfg c), s1) ->
  call_next request s1 = (r, s2, t2) ->
  @dispatch store engine request call_next s
  = (match r with
     | Return response =>
         Return (set_header "X-RateLimit-Reset" (reset cfg)
                   (set_header "X-RateLimit-Remaining"
                      (pretty (Z.max 0 (Z.of_nat (limit cfg) - Z.of_nat c)))
                      (set_header "X-RateLimit-Limit"
                         (pretty (Z.of_nat (limit cfg))) response)))
     | Raise e => Raise (if is_HTTPException e then e else internal_error)
     end,
     s2,
     t1 ++ [EvCheckRateLimit (py_or uid "anonymous") (path request) ip;
            EvLogRequest (py_or uid "anonymous") (path request) ip;
            EvCallNext request] ++ t2
        ++ match r with
           | Return _ => []
           | Raise e =>
               if is_HTTPException e then []
               else [EvLog ERROR error_message]
           end).
Proof.
  intros Hclient Hcount Hget Hcheck Hnext.
  apply (@RateLimitingFacts.dispatch_allows store engine request call_next
           s uid s s1 s1 s2 t1 t2 ip (limit_info cfg c)
           (VInt (Z.of_nat (limit cfg)))
           (VInt (Z.max 0 (Z.of_nat (limit cfg) - Z.of_nat c)))
           (reset cfg) r); done.
Qed.

(** A check that saw a count beyond the limit ends the request with the
    429. *)
Lemma dispatch_refuses (request : Request)
    (call_next : Request -> Py store Response) (s s1 : store)
    (uid : option string) (t1 : list event) (ip : string) (c : nat) :
  client request = Some ip ->
  startswith_any (path request) exempt_prefixes = false ->
  @get_user_id store engine request s = (Return uid, s, t1) ->
  check cfg (py_or uid "anonymous") (path request) ip s
    = (Return (false, limit_info cfg c), s1) ->
  @dispatch store engine request call_next s
  = (Raise (too_many_requests (VStr (reset cfg))
              (VInt (Z.of_nat (limit cfg))) (VInt (window cfg))),
     s1,
     t1 ++ [EvCheckRateLimit (py_or uid "anonymous") (path request) ip]).
Proof.
  intros Hclient Hcount Hget Hcheck.
  apply (@RateLimitingFacts.dispatch_rejects store engine request call_next
           s uid s s1 t1 ip (limit_info cfg c)); done.
Qed.



(** C4, on the engine of section 4.2 and on the code. When the store
    cannot be reached the engine lets the request through and logs the
    degradation; [dispatch] then hands a request that carries a client
    address to the rest of the chain, with the counters as they were,
    and gives back the chain's response (under the quota headers, when
    the path is not exempt); an exception leaves the stage only when the
    rest of the chain raised one.  A request without client address is
    not let through: reading [request.client.host] raises, and the
    stage answers with its 500 after one error record, the rest of the
    chain not invoked.  The stage has no fail-open path of its own
    either: when a call to the service raises, the rest of the chain is
    not invoked, and the exception leaves [dispatch] as it is when it is
    a [fastapi.HTTPException] and as the 500, after one error record,
    when it is anything else. *)
Theorem store_outage_lets_through_only_with_client_address :
  (forall (request : Request) (call_next : Request -> Py store Response)
          (s : store) (ip : string),
      available s = false ->
      client request = Some ip ->
      exists s1,
        available s1 = false
        /\ counters s1 = counters s
        /\ service_log s1
           = (if startswith_any (path request) exempt_prefixes
              then service_log s else service_log s ++ [degradation])
        /\ forall r s2 t2,
             call_next request s1 = (r, s2, t2) ->
             exists r' t,
               @dispatch store engine request call_next s = (r', s2, t)
               /\ EvCallNext request ∈ t
               /\ (forall response,
                     r = Return response ->
                     exists response',
                       r' = Return response'
                       /\ status_code response' = status_code response
                       /\ content response' = content response)
               /\ (forall e,
                     r = Raise e ->
                     r' = Raise (if is_HTTPException e then e
                                 else internal_error)))
  /\ (forall (request : Request) (call_next : Request -> Py store Response)
             (s : store),
        client request = None ->
        exists uid t1,
          @get_user_id store engine request s = (Return uid, s, t1)
          /\ quiet t1
          /\ @dispatch store engine request call_next s
             = (Raise internal_error, s, t1 ++ [EvLog ERROR error_message]))
  /\ (forall (W : Type) (H : Services W) (request : Request)
             (call_next : Request -> Py W Response) (w w1 w2 : W)
             (uid : option string) (t1 : list event) (ip : string)
             (e : exn),
        startswith_any (path request) exempt_prefixes = false ->
        client request = Some ip ->
        get_user_id request w = (Return uid, w1, t1) ->
        let user_id := py_or uid "anonymous" in
        let last_words :=
          if is_HTTPException e then [] else [EvLog ERROR error_message] in
        (check_rate_limit user_id (path request) ip w1 = (Raise e, w2) ->
         dispatch request call_next w
         = (Raise (if is_HTTPException e then e else internal_error), w2,
            t1 ++ [EvCheckRateLimit user_id (path request) ip]
               ++ last_words))
        /\ (forall info w1',
              check_rate_limit user_id (path request) ip w1
                = (Return (true, info), w1') ->
              log_request user_id (path request) ip w1' = (Raise e, w2) ->
              dispatch request call_next w
              = (Raise (if is_HTTPException e then e else internal_error),
                 w2,
                 t1 ++ [EvCheckRateLimit user_id (path request) ip;
                        EvLogRequest user_id (path request) ip]
                    ++ last_words))).
Proof.
  split; [|split].
  - intros request call_next s ip Ha Hclient.
    destruct (get_user_id_keeps_store request s) as (uid & t1 & Hget & Hq & _).
    destruct (startswith_any (path request) exempt_prefixes) eqn:Hexempt.
    + exists s. do 3 (split; [done|]). intros r s2 t2 Hnext.
      destruct (@RateLimitingFacts.dispatch_exempt store engine request
                  call_next s s uid t1 ip r s2 t2 Hexempt Hclient Hget Hnext)
        as (r' & t3 & Hd & _ & Hresp & Hexn).
      exists r', (t1 ++ EvCallNext request :: t2 ++ t3).
      split; [exact Hd|].
      split; [apply elem_of_app; right; apply elem_of_cons; by left|]. split.
      * intros response Hr. destruct (Hresp response Hr) as [-> _].
        by exists response.
      * intros e Hr. specialize (Hexn e Hr).
        destruct (is_HTTPException e); by destruct Hexn as [-> _].
    + pose proof (check_unavailable (py_or uid "anonymous") (path request)
                    ip s Ha) as Hcheck.
      set (s1 := {| available := false; counters := counters s;
                    service_log := service_log s ++ [degradation] |}) in *.
      exists s1. do 3 (split; [done|]). intros r s2 t2 Hnext.
      rewrite (dispatch_lets_through request call_next s s1 s2 uid t1 t2 ip
                 0 r Hclient Hexempt Hget Hcheck Hnext).
      eexists _, _. split; [reflexivity|].
      split; [apply elem_of_app; right; simpl; rewrite !elem_of_cons; tauto|].
      split.
      * intros response ->. eexists. split; [reflexivity|]. done.
      * by intros e ->.
  - intros request call_next s Hclient.
    destruct (get_user_id_keeps_store request s) as (uid & t1 & Hget & Hq & _).
    destruct (@RateLimitingFacts.dispatch_without_client store engine
                request call_next s Hclient)
      as (uid' & s1 & t1' & Hget' & _ & Hd).
    rewrite Hget in Hget'. injection Hget' as <- <- <-.
    by exists uid, t1.
  - intros W H request call_next w w1 w2 uid t1 ip e Hcount Hclient Hget.
    apply (@RateLimitingFacts.dispatch_service_raises W H request call_next
             w uid w1 w2 t1 ip e Hcount Hclient Hget).
Qed.

End Engine.


(** The scenario of section 8 under [dispatch]: with three requests per
    minute, user [u1] is answered three times, with 2, 1 and 0 requests
    remaining, and refused the fourth time; the counter stands at 4. *)
Example three_per_minute_scenario :
  let engine := services Fixtures.three_per_minute Fixtures.token_names_user in
  let request := Fixtures.orders_request_of "u1" in
  let remaining (r : outcome Response) :=
    match r with
    | Return response => dict_get "x-ratelimit-remaining" (headers response)
    | Raise _ => None
    end in
  let '(r1, s1, _) := @dispatch store engine request Fixtures.ok_next fresh in
  let '(r2, s2, _) := @dispatch store engine request Fixtures.ok_next s1 in
  let '(r3, s3, _) := @dispatch store engine request Fixtures.ok_next s2 in
  let '(r4, s4, _) := @dispatch store engine request Fixtures.ok_next s3 in
  remaining r1 = Some "2"%string
  /\ remaining r2 = Some "1"%string
  /\ remaining r3 = Some "0"%string
  /\ r4 = Raise (too_many_requests (VStr "2025-06-03T12:45:44") (VInt 3)
                   (VInt 60))
  /\ count s4 "u1:/orders:10.0.0.7" = 4.
Proof. vm_compute. repeat split. Qed.



(** With the store out of reach, [GET /orders] from 10.0.0.7 reaches the
    rest of the chain and its response comes back; the same request on
    a connection without client address is answered by the 500. *)
Lemma store_outage_lets_through_only_with_client_address_witness :
  @fails_open store
    (services Fixtures.one_per_minute Fixtures.token_names_user)
    Fixtures.orders_request Fixtures.ok_next unreachable
  /\ @dispatch store
       (services Fixtures.one_per_minute Fixtures.token_names_user)
       (Fixtures.clientless "/orders") Fixtures.ok_next unreachable
     = (Raise internal_error, unreachable, [EvLog ERROR error_message]).
Proof.
  destruct (store_outage_lets_through_only_with_client_address
              Fixtures.one_per_minute Fixtures.token_names_user)
    as (Hopen & Hclosed & _).
  split.
  - destruct (Hopen Fixtures.orders_request Fixtures.ok_next unreachable
                "10.0.0.7" eq_refl eq_refl)
      as (s1 & _ & _ & _ & Hd).
    destruct (Hd (Return (JSONResponse 200 (JObj []))) s1 [] eq_refl)
      as (r' & t & Hdispatch & Hnext & Hresp & _).
    destruct (Hresp _ eq_refl) as (response' & -> & _).
    by exists response', s1, t.
  - destruct (Hclosed (Fixtures.clientless "/orders") Fixtures.ok_next
                unreachable eq_refl)
      as (uid & t1 & Hget & _ & Hd).
    injection Hget as <- <-. exact Hd.
Defined.

End FixedWindowFacts.

(** * Part III: further properties of the code *)

(** ** Strings *)
Module StringFacts.

Lemma prefix_iff (p s : string) :
  String.prefix p s = true <-> exists rest, s = p ++ rest.
Proof.
  revert s. induction p as [|a p IH]; intros [|b s]; simpl.
  - split; [intros _; by exists "" | done].
  - split; [intros _; by eexists | done].
  - split; [done | by intros [rest [=]]].
  - destruct (Ascii.ascii_dec a b) as [->|Hne].
    + rewrite IH. split; intros [rest Hrest]; exists rest.
      * by rewrite Hrest.
      * by injection Hrest.
    + split; [done|]. intros [rest [= Hab _]]. by destruct Hne.
Qed.

Lemma split_on_nonempty (c : Ascii.ascii) (s : string) :
  split_on c s <> [].
Proof.
  destruct s as [|a s]; simpl; [done|].
  destruct (Ascii.eqb a c); [done|]. by destruct (split_on c s).
Qed.

(** A string without the separator is not cut. *)
Lemma split_on_whole (c : Ascii.ascii) (s : string) :
  has_char c s = false -> split_on c s = [s].
Proof.
  induction s as [|a s IH]; simpl; [done|].
  intros [Ha Hs]%orb_false_iff. rewrite Ha, (IH Hs). done.
Qed.

(** Cutting at the first separator. *)
Lemma split_on_first (c : Ascii.ascii) (p s : string) :
  has_char c p = false ->
  split_on c (p ++ String c s) = p :: split_on c s.
Proof.
  induction p as [|a p IH]; simpl.
  - intros _. by rewrite Ascii.eqb_refl.
  - intros [Ha Hp]%orb_false_iff. by rewrite Ha, (IH Hp).
Qed.

(** The text before the first separator determines the rest. *)
Lemma append_sep_inj (c : Ascii.ascii) (p1 p2 r1 r2 : string) :
  has_char c p1 = false -> has_char c p2 = false ->
  p1 ++ String c r1 = p2 ++ String c r2 -> p1 = p2 /\ r1 = r2.
Proof.
  revert p2. induction p1 as [|a p1 IH]; intros [|b p2]; simpl.
  - by intros _ _ [= ->].
  - intros _ [Hb _]%orb_false_iff [= <- _]. by rewrite Ascii.eqb_refl in Hb.
  - intros [Ha _]%orb_false_iff _ [= -> _]. by rewrite Ascii.eqb_refl in Ha.
  - intros [_ H1]%orb_false_iff [_ H2]%orb_false_iff [= -> Heq].
    destruct (IH p2 H1 H2 Heq) as [-> ->]. done.
Qed.

End StringFacts.

(** ** Response headers *)
Module HeaderFacts.
#[local] Open Scope list_scope.

Lemma dict_get_None_existsb (key : string) (hs : dict string) :
  existsb (fun h : string * string => String.eqb h.1 key) hs = false ->
  dict_get key hs = None.
Proof.
  induction hs as [|[k v] hs IH]; simpl; [done|].
  intros [Hk Hhs]%orb_false_iff. rewrite String.eqb_sym, Hk. by apply IH.
Qed.

Lemma dict_get_app_new (k key value : string) (hs : dict string) :
  dict_get key hs = None ->
  dict_get k (hs ++ [(key, value)])
  = if String.eqb k key then Some value else dict_get k hs.
Proof.
  induction hs as [|[k' v'] hs IH]; simpl; [done|].
  destruct (String.eqb key k') eqn:Hkey; [done|]. intros Hnone.
  destruct (String.eqb k k') eqn:Hk.
  - apply String.eqb_eq in Hk as ->.
    destruct (String.eqb k' key) eqn:Hk'; [|done].
    apply String.eqb_eq in Hk' as ->. by rewrite String.eqb_refl in Hkey.
  - by apply IH.
Qed.

Lemma remove_header_cons (key k v : string) (hs : dict string) :
  remove_header key ((k, v) :: hs)
  = if String.eqb k key then remove_header key hs
    else (k, v) :: remove_header key hs.
Proof.
  unfold remove_header. destruct (String.eqb k key) eqn:Hk.
  - apply filter_cons_False. simpl. rewrite Hk. simpl. tauto.
  - apply filter_cons_True. simpl. by rewrite Hk.
Qed.

Lemma dict_get_remove_header (k key : string) (hs : dict string) :
  dict_get k (remove_header key hs)
  = if String.eqb k key then None else dict_get k hs.
Proof.
  induction hs as [|[k' v'] hs IH].
  - simpl. by destruct (String.eqb k key).
  - rewrite remove_header_cons. cbn [dict_get].
    destruct (String.eqb k' key) eqn:Hk'.
    + rewrite IH. destruct (String.eqb k key) eqn:Hk; [done|].
      destruct (String.eqb k k') eqn:Hkk'; [|done].
      apply String.eqb_eq in Hkk' as ->. congruence.
    + cbn [dict_get]. destruct (String.eqb k k') eqn:Hkk'; [|exact IH].
      apply String.eqb_eq in Hkk' as ->. by rewrite Hk'.
Qed.

Lemma dict_get_replace_header (k key value : string) (hs : dict string) :
  existsb (fun h : string * string => String.eqb h.1 key) hs = true ->
  dict_get k (replace_header key value hs)
  = if String.eqb k key then Some value else dict_get k hs.
Proof.
  induction hs as [|[k' v'] hs IH]; simpl; [done|].
  destruct (String.eqb k' key) eqn:Hk'; simpl.
  - intros _. apply String.eqb_eq in Hk' as ->.
    destruct (String.eqb k key) eqn:Hk; [done|].
    rewrite dict_get_remove_header. by rewrite Hk.
  - intros Hex. specialize (IH Hex).
    destruct (String.eqb k k') eqn:Hkk'; [|exact IH].
    apply String.eqb_eq in Hkk' as ->. by rewrite Hk'.
Qed.

(** Reading a header after [response.headers[name] = value]: the header
    set holds the new value, every other header is as before. *)
Lemma dict_get_set_header (k name value : string) (r : Response) :
  dict_get k (headers (set_header name value r))
  = if String.eqb k (lower name) then Some value
    else dict_get k (headers r).
Proof.
  unfold set_header. cbn [headers].
  destruct (existsb _ (headers r)) eqn:Hex.
  - by apply dict_get_replace_header.
  - apply dict_get_app_new. by apply dict_get_None_existsb.
Qed.

(** The number of header lines of a given name. *)
Lemma eqb_trans_l (k k' key : string) :
  String.eqb k k' = true -> String.eqb k' key = String.eqb k key.
Proof. by intros ->%String.eqb_eq. Qed.

Lemma header_lines_remove_header (k key : string) (hs : dict string) :
  header_lines k (remove_header key hs)
  = if String.eqb k key then 0%nat else header_lines k hs.
Proof.
  induction hs as [|[k' v'] hs IH].
  - simpl. by destruct (String.eqb k key).
  - rewrite remove_header_cons. cbn [header_lines].
    destruct (String.eqb k' key) eqn:Hk'.
    + rewrite IH. destruct (String.eqb k key) eqn:Hk; [done|].
      destruct (String.eqb k' k) eqn:Hkk'; [|done].
      rewrite (eqb_trans_l k' k key Hkk') in Hk. congruence.
    + cbn [header_lines]. rewrite IH.
      destruct (String.eqb k' k) eqn:Hkk'; [|done].
      by rewrite (eqb_trans_l k' k key Hkk'), Hk'.
Qed.

Lemma header_lines_replace_header (k key value : string) (hs : dict string) :
  existsb (fun h : string * string => String.eqb h.1 key) hs = true ->
  header_lines k (replace_header key value hs)
  = if String.eqb k key then 1%nat else header_lines k hs.
Proof.
  induction hs as [|[k' v'] hs IH]; [done|].
  cbn [existsb replace_header fst header_lines].
  destruct (String.eqb k' key) eqn:Hk'.
  - intros _. apply String.eqb_eq in Hk' as ->.
    cbn [header_lines]. rewrite header_lines_remove_header.
    rewrite (String.eqb_sym key k). by destruct (String.eqb k key).
  - intros Hex. cbn [header_lines]. rewrite (IH Hex).
    destruct (String.eqb k' k) eqn:Hkk'; [|done].
    by rewrite (eqb_trans_l k' k key Hkk'), Hk'.
Qed.

Lemma header_lines_append (k key value : string) (hs : dict string) :
  header_lines k (hs ++ [(key, value)])
  = (header_lines k hs + if String.eqb k key then 1 else 0)%nat.
Proof.
  induction hs as [|[k' v'] hs IH].
  - simpl. rewrite (String.eqb_sym key k). lia.
  - rewrite <- app_comm_cons. cbn [header_lines]. rewrite IH. lia.
Qed.

Lemma header_lines_absent (key : string) (hs : dict string) :
  existsb (fun h : string * string => String.eqb h.1 key) hs = false ->
  header_lines key hs = 0%nat.
Proof.
  induction hs as [|[k v] hs IH]; [done|].
  cbn [existsb fst header_lines]. intros [Hk Hhs]%orb_false_iff.
  by rewrite (IH Hhs), Hk.
Qed.

(** After [response.headers[name] = value] the response has one line of
    that name, and as many lines of any other name as before. *)
Lemma header_lines_set_header (k name value : string) (r : Response) :
  header_lines k (headers (set_header name value r))
  = if String.eqb k (lower name) then 1%nat
    else header_lines k (headers r).
Proof.
  unfold set_header. cbn [headers].
  destruct (existsb _ (headers r)) eqn:Hex.
  - by apply header_lines_replace_header.
  - rewrite header_lines_append.
    destruct (String.eqb k (lower name)) eqn:Hk; [|lia].
    apply String.eqb_eq in Hk as ->. by rewrite header_lines_absent.
Qed.

End HeaderFacts.

(** ** The rate-limiting stage, continued *)
Module RateLimitingExtra.
Import RateLimiting.

Section Facts.
Context {W : Type} `{Services W}.

(** [get_user_id] never raises: whatever the header holds and whatever
    the authentication service does, it returns a name or [None], and it
    touches neither the quota nor the rest of the chain. *)
Theorem get_user_id_never_raises (request : Request) (w : W) :
  exists uid w1 t1,
    get_user_id request w = (Return uid, w1, t1)
    /\ Forall (fun ev => is_quota_event ev = false
                         /\ is_call_next ev = false) t1.
Proof. apply RateLimitingFacts.get_user_id_total. Qed.

(** A header [Bearer <token>] whose token holds no space is verified as
    that very token, and the user name of a verified token is
    returned. *)
Theorem get_user_id_verifies_the_bearer_token
    (request : Request) (w w1 : W) (token : string) (data : TokenData) :
  dict_get "Authorization" (req_headers request) = Some ("Bearer " ++ token) ->
  has_char SPACE token = false ->
  verify_token token w = (Return (true, Some data), w1) ->
  get_user_id request w
  = (Return (Some (username data)), w1, [EvVerifyToken token]).
Proof.
  intros Hheader Hspace Hverify. unfold get_user_id. rewrite Hheader.
  cbn [from_option id].
  assert (startswith ("Bearer " ++ token) "Bearer " = true) as ->.
  { apply StringFacts.prefix_iff. by exists token. }
  assert (split_on (Ascii.ascii_of_nat 32) ("Bearer " ++ token)
          = ["Bearer"; token]) as Hsplit.
  { change ("Bearer " ++ token) with ("Bearer" ++ String SPACE token).
    rewrite (StringFacts.split_on_first SPACE) by reflexivity.
    by rewrite (StringFacts.split_on_whole SPACE). }
  simpl truthy. simpl negb. simpl orb. RateLimitingFacts.run_py.
  rewrite Hsplit. simpl. by rewrite Hverify.
Qed.

(** Whatever happens in its [try] block, an exception that leaves
    [dispatch] is a [fastapi.HTTPException]: one raised in the block
    leaves as it is, with nothing logged; any other exception, a
    [starlette.exceptions.HTTPException] included, is logged once and
    replaced by the 500.  A response of the block is returned as it
    is. *)
Theorem dispatch_raises_only_http_exceptions
    (request : Request) (call_next : Request -> Py W Response) (w : W) :
  dispatch request call_next w
  = match dispatch_try request call_next w with
    | (Return response, w1, t1) => (Return response, w1, t1)
    | (Raise e, w1, t1) =>
        if is_HTTPException e then (Raise e, w1, t1)
        else (Raise internal_error, w1,
              (t1 ++ [EvLog ERROR error_message])%list)
    end
  /\ (forall e w' t,
        dispatch request call_next w = (Raise e, w', t) ->
        is_HTTPException e = true)
  /\ (forall status detail hs w1 t1,
        dispatch_try request call_next w
          = (Raise (StarletteHTTPException status detail hs), w1, t1) ->
        dispatch request call_next w
          = (Raise internal_error, w1,
             (t1 ++ [EvLog ERROR error_message])%list)).
Proof.
  assert (dispatch request call_next w
          = match dispatch_try request call_next w with
            | (Return response, w1, t1) => (Return response, w1, t1)
            | (Raise e, w1, t1) =>
                if is_HTTPException e then (Raise e, w1, t1)
                else (Raise internal_error, w1,
                      (t1 ++ [EvLog ERROR error_message])%list)
            end) as Hd.
  { unfold dispatch, try_except.
    destruct (dispatch_try request call_next w) as [[[response|e] w1] t1];
      [reflexivity|].
    destruct (is_HTTPException e) eqn:He.
    - rewrite RateLimitingFacts.dispatch_except_http by done.
      by rewrite app_nil_r.
    - by rewrite RateLimitingFacts.dispatch_except_other. }
  split; [exact Hd|]. split.
  - intros e w' t. rewrite Hd.
    destruct (dispatch_try request call_next w) as [[[response|e0] w1] t1];
      [discriminate|].
    destruct (is_HTTPException e0) eqn:He0; intros [= <- _ _]; done.
  - intros status detail hs w1 t1 Htry. by rewrite Hd, Htry.
Qed.

(** A refused check ends the request at once: the rest of the chain is
    not invoked and the request is not logged.  The exception is the 429
    when [limit_info] holds [reset], [limit] and [window]; a missing key
    turns it into the 500. *)
Theorem refused_requests_short_circuit
    (request : Request) (call_next : Request -> Py W Response) (w : W)
    (uid : option string) (w1 w2 : W) (t1 : list event) (ip : string)
    (info : dict pyval) :
  startswith_any (path request) exempt_prefixes = false ->
  client request = Some ip ->
  get_user_id request w = (Return uid, w1, t1) ->
  check_rate_limit (py_or uid "anonymous") (path request) ip w1
    = (Return (false, info), w2) ->
  exists e t,
    dispatch request call_next w = (Raise e, w2, t)
    /\ Forall (fun ev => is_call_next ev = false
                         /\ is_log_request ev = false) t
    /\ e = match dict_get "reset" info, dict_get "limit" info,
                 dict_get "window" info with
           | Some reset, Some limit, Some window =>
               too_many_requests reset limit window
           | _, _, _ => internal_error
           end.
Proof.
  intros Hcount Hclient Hget Hcheck.
  assert (Forall (fun ev => is_call_next ev = false
                            /\ is_log_request ev = false) t1) as Ht1.
  { destruct (RateLimitingFacts.get_user_id_total request w)
      as (? & ? & ? & Hget' & Hq).
    rewrite Hget in Hget'. injection Hget' as <- <- <-.
    eapply Forall_impl; [exact Hq|]. intros [] [? ?]; done. }
  unfold dispatch, dispatch_try; unfold try_except at 1, bind at 1.
  rewrite Hget. unfold client_host. rewrite Hclient.
  unfold bind at 1, lift_outcome at 1. cbv iota beta. rewrite Hcount.
  unfold bind at 1, call at 1. rewrite Hcheck. simpl.
  unfold getitem.
  destruct (dict_get "reset" info) as [reset|];
    [destruct (dict_get "limit" info) as [limit|];
     [destruct (dict_get "window" info) as [window|]|]|];
    RateLimitingFacts.run_py; simpl;
    (eexists _, _; split; [reflexivity|]; split; [|reflexivity]);
    rewrite ?app_nil_r, !Forall_app; repeat split; auto;
    repeat constructor.
Qed.

(** When the request is allowed and the chain answers, the answer comes
    back with its status and body and with the three quota headers set
    the way [response.headers[name] = value] sets them: under its
    lowered name each holds the value of [limit_info], on one line, also
    when the chain's response carried the header already; every other
    header is as the chain left it.  The request was logged before the
    chain ran. *)
Theorem allowed_requests_get_quota_headers
    (request : Request) (call_next : Request -> Py W Response) (w : W)
    (uid : option string) (w1 w2 w3 w4 : W) (t1 t4 : list event)
    (ip : string) (info : dict pyval) (limit remaining : pyval)
    (reset : string) (response : Response) :
  startswith_any (path request) exempt_prefixes = false ->
  client request = Some ip ->
  get_user_id request w = (Return uid, w1, t1) ->
  check_rate_limit (py_or uid "anonymous") (path request) ip w1
    = (Return (true, info), w2) ->
  log_request (py_or uid "anonymous") (path request) ip w2
    = (Return tt, w3) ->
  call_next request w3 = (Return response, w4, t4) ->
  dict_get "limit" info = Some limit ->
  dict_get "remaining" info = Some remaining ->
  dict_get "reset" info = Some (VStr reset) ->
  exists response',
    dispatch request call_next w
    = (Return response', w4,
       (t1 ++ [EvCheckRateLimit (py_or uid "anonymous") (path request) ip;
               EvLogRequest (py_or uid "anonymous") (path request) ip;
               EvCallNext request] ++ t4)%list)
    /\ status_code response' = status_code response
    /\ content response' = content response
    /\ media_type response' = media_type response
    /\ dict_get "x-ratelimit-limit" (headers response') = Some (py_str limit)
    /\ dict_get "x-ratelimit-remaining" (headers response')
       = Some (py_str remaining)
    /\ dict_get "x-ratelimit-reset" (headers response') = Some reset
    /\ header_lines "x-ratelimit-limit" (headers response') = 1%nat
    /\ header_lines "x-ratelimit-remaining" (headers response') = 1%nat
    /\ header_lines "x-ratelimit-reset" (headers response') = 1%nat
    /\ (forall name,
          name <> "x-ratelimit-limit" ->
          name <> "x-ratelimit-remaining" ->
          name <> "x-ratelimit-reset" ->
          dict_get name (headers response') = dict_get name (headers response)
          /\ header_lines name (headers response')
             = header_lines name (headers response)).
Proof.
  intros Hcount Hclient Hget Hcheck Hlog Hnext Hlimit Hremaining Hreset.
  eexists. split.
  - rewrite (RateLimitingFacts.dispatch_allows request call_next w uid
               w1 w2 w3 w4 t1 t4 ip info limit remaining reset
               (Return response) Hcount Hclient Hget Hcheck Hlog Hnext
               Hlimit Hremaining Hreset).
    by rewrite app_nil_r.
  - do 3 (split; [reflexivity|]).
    rewrite !HeaderFacts.dict_get_set_header,
      !HeaderFacts.header_lines_set_header.
    do 6 (split; [reflexivity|]).
    intros name H1 H2 H3.
    rewrite !HeaderFacts.dict_get_set_header,
      !HeaderFacts.header_lines_set_header.
    change (lower "X-RateLimit-Limit") with "x-ratelimit-limit".
    change (lower "X-RateLimit-Remaining") with "x-ratelimit-remaining".
    change (lower "X-RateLimit-Reset") with "x-ratelimit-reset".
    apply String.eqb_neq in H1, H2, H3. by rewrite H1, H2, H3.
Qed.

(** When the request is allowed and the chain raises, a
    [fastapi.HTTPException] of the chain leaves [dispatch] unchanged and
    any other exception, a [starlette.exceptions.HTTPException]
    included, leaves it as the 500 of the rate limiter; either way the
    request has been logged against the quota. *)
Theorem chain_exceptions_after_logging
    (request : Request) (call_next : Request -> Py W Response) (w : W)
    (uid : option string) (w1 w2 w3 w4 : W) (t1 t4 : list event)
    (ip : string) (info : dict pyval) (e : exn) :
  startswith_any (path request) exempt_prefixes = false ->
  client request = Some ip ->
  get_user_id request w = (Return uid, w1, t1) ->
  check_rate_limit (py_or uid "anonymous") (path request) ip w1
    = (Return (true, info), w2) ->
  log_request (py_or uid "anonymous") (path request) ip w2
    = (Return tt, w3) ->
  call_next request w3 = (Raise e, w4, t4) ->
  exists t,
    dispatch request call_next w
    = (Raise (if is_HTTPException e then e else internal_error), w4, t)
    /\ EvLogRequest (py_or uid "anonymous") (path request) ip ∈ t.
Proof.
  intros Hcount Hclient Hget Hcheck Hlog Hnext.
  unfold dispatch, dispatch_try; unfold try_except at 1, bind at 1.
  rewrite Hget. unfold client_host. rewrite Hclient.
  unfold bind at 1, lift_outcome at 1. cbv iota beta. rewrite Hcount.
  unfold bind at 1, call at 1. rewrite Hcheck. simpl.
  unfold bind at 1, call at 1. rewrite Hlog.
  unfold bind at 1, invoke, bind at 1, emit. rewrite Hnext.
  destruct (RateLimitingFacts.dispatch_except_raises e w4)
    as (e' & t' & -> & _ & Hhttp & Hother).
  eexists. split.
  - f_equal. f_equal. f_equal.
    destruct (is_HTTPException e) eqn:He.
    + by destruct (Hhttp eq_refl) as [-> _].
    + by destruct (Hother eq_refl) as [-> _].
  - simpl. rewrite !elem_of_app, !elem_of_cons. tauto.
Qed.

(** Of the requests that carry a client address, [dispatch] hands to
    the rest of the chain without a check exactly those whose path
    begins with [/static/], [/public/] or [/health]; for every other
    path the first thing it does after the identity lookup is the quota
    check.  The test is on the raw prefix: [/healthcheck-admin] passes
    with the quota used up, [/static] and [/api/health] do not. *)
Theorem exempt_paths_are_the_prefix_matches
    (request : Request) (call_next : Request -> Py W Response) (w : W)
    (ip : string) :
  client request = Some ip ->
  exists uid w1 t1,
    get_user_id request w = (Return uid, w1, t1)
    /\ ((exists rest,
           path request = "/static/" ++ rest
           \/ path request = "/public/" ++ rest
           \/ path request = "/health" ++ rest)
        <-> exists r w' t2,
              dispatch request call_next w
              = (r, w', (t1 ++ EvCallNext request :: t2)%list))
    /\ ((~ exists rest,
             path request = "/static/" ++ rest
             \/ path request = "/public/" ++ rest
             \/ path request = "/health" ++ rest)
        <-> exists r w' t2,
              dispatch request call_next w
              = (r, w',
                 (t1 ++ EvCheckRateLimit (py_or uid "anonymous")
                          (path request) ip :: t2)%list))
    /\ returns (@dispatch unit Fixtures.exhausted_quota
                  (Fixtures.get "/healthcheck-admin" [])
                  Fixtures.ok_next tt).1.1 = true
    /\ returns (@dispatch unit Fixtures.exhausted_quota
                  (Fixtures.get "/static" []) Fixtures.ok_next tt).1.1
       = false
    /\ returns (@dispatch unit Fixtures.exhausted_quota
                  (Fixtures.get "/api/health" []) Fixtures.ok_next tt).1.1
       = false.
Proof.
  intros Hclient.
  destruct (RateLimitingFacts.get_user_id_total request w)
    as (uid & w1 & t1 & Hget & _).
  exists uid, w1, t1. split; [exact Hget|].
  assert (startswith_any (path request) exempt_prefixes = true
          <-> exists rest,
                path request = "/static/" ++ rest
                \/ path request = "/public/" ++ rest
                \/ path request = "/health" ++ rest) as Hprefix.
  { unfold startswith_any, exempt_prefixes, startswith. simpl existsb.
    rewrite !orb_true_iff, !StringFacts.prefix_iff. split.
    - intros [[r ->] | [[r ->] | [[r ->] | ?]]]; [exists r; tauto..|done].
    - intros [r [-> | [-> | ->]]]; [left | right; left | right; right; left];
        by exists r. }
  assert (startswith_any (path request) exempt_prefixes = true ->
          exists r w' t2,
            dispatch request call_next w
            = (r, w', (t1 ++ EvCallNext request :: t2)%list)) as Hpass.
  { intros Hexempt.
    destruct (call_next request w1) as [[r w2] t2] eqn:Hnext.
    destruct (RateLimitingFacts.dispatch_exempt request call_next w w1 uid
                t1 ip r w2 t2 Hexempt Hclient Hget Hnext)
      as (r' & t3 & Hd & _).
    by eexists _, _, _. }
  assert (startswith_any (path request) exempt_prefixes = false ->
          exists r w' t2,
            dispatch request call_next w
            = (r, w',
               (t1 ++ EvCheckRateLimit (py_or uid "anonymous")
                        (path request) ip :: t2)%list)) as Hcheck.
  { intros Hcount.
    unfold dispatch, dispatch_try.
    rewrite (try_bind_return _ _ _ _ _ _ _ Hget).
    unfold client_host. rewrite Hclient.
    rewrite (try_bind_return (lift_outcome (Return ip)) _ _ w1 w1 ip []
               eq_refl).
    rewrite Hcount.
    match goal with
    | |- context [try_except (bind (call ?ev ?f) ?k) ?h w1] =>
        destruct (try_call_first ev f k h w1) as (r & w' & t & ->)
    end.
    by eexists _, _, _. }
  split; [|split; [|by vm_compute]].
  - rewrite <- Hprefix. split; [exact Hpass|].
    intros (r & w' & t2 & Hd).
    destruct (startswith_any (path request) exempt_prefixes) eqn:Hexempt;
      [done|].
    destruct (Hcheck eq_refl) as (r' & w'' & t2' & Hd').
    rewrite Hd in Hd'. injection Hd' as _ _ Ht.
    apply app_inv_head in Ht. discriminate.
  - rewrite <- Hprefix, not_true_iff_false. split; [exact Hcheck|].
    intros (r & w' & t2 & Hd).
    destruct (startswith_any (path request) exempt_prefixes) eqn:Hexempt;
      [|done].
    destruct (Hpass eq_refl) as (r' & w'' & t2' & Hd').
    rewrite Hd in Hd'. injection Hd' as _ _ Ht.
    apply app_inv_head in Ht. discriminate.
Qed.

End Facts.

(** The key separates its three parts by colons only: triples whose user
    name and endpoint hold no colon have different keys, while a colon
    inside a part lets two different triples share one key. *)
Theorem rate_limit_key_injective_without_colons
    (u1 e1 i1 u2 e2 i2 : string) :
  has_char COLON u1 = false -> has_char COLON u2 = false ->
  has_char COLON e1 = false -> has_char COLON e2 = false ->
  get_rate_limit_key u1 e1 i1 = get_rate_limit_key u2 e2 i2 ->
  u1 = u2 /\ e1 = e2 /\ i1 = i2.
Proof.
  intros Hu1 Hu2 He1 He2. unfold get_rate_limit_key. simpl. intros Hkey.
  apply (StringFacts.append_sep_inj COLON) in Hkey as [-> Hkey]; [|done..].
  apply (StringFacts.append_sep_inj COLON) in Hkey as [-> ->]; done.
Qed.

Theorem rate_limit_key_collides_on_colons :
  exists u1 e1 i1 u2 e2 i2 : string,
    (u1, e1, i1) <> (u2, e2, i2)
    /\ get_rate_limit_key u1 e1 i1 = get_rate_limit_key u2 e2 i2.
Proof.
  exists "alice", "/files/a:b", "10.0.0.7", "alice", "/files/a", "b:10.0.0.7".
  split; [discriminate | reflexivity].
Qed.

(** Colons in the address do no harm: the key of a request from [::1]. *)
Lemma rate_limit_key_injective_without_colons_witness :
  "u1" = "u1" /\ "/orders" = "/orders" /\ "::1" = "::1".
Proof.
  apply (rate_limit_key_injective_without_colons
           "u1" "/orders" "::1" "u1" "/orders" "::1"); reflexivity.
Defined.

Lemma get_user_id_verifies_the_bearer_token_witness :
  @get_user_id unit Fixtures.quota_left (Fixtures.orders_request_of "alice") tt
  = (Return (Some "alice"), tt, [EvVerifyToken "alice"]).
Proof.
  apply (@get_user_id_verifies_the_bearer_token unit Fixtures.quota_left
           (Fixtures.orders_request_of "alice") tt tt "alice"
           {| username := "alice" |}); reflexivity.
Defined.

Lemma refused_requests_short_circuit_witness :
  exists t,
    @dispatch unit Fixtures.exhausted_quota Fixtures.orders_request
      Fixtures.ok_next tt
    = (Raise (too_many_requests (VStr "2025-06-03T12:45:44") (VInt 3)
                (VInt 60)), tt, t)
    /\ Forall (fun ev => is_call_next ev = false
                         /\ is_log_request ev = false) t.
Proof.
  destruct (@refused_requests_short_circuit unit Fixtures.exhausted_quota
              Fixtures.orders_request Fixtures.ok_next tt None tt tt []
              "10.0.0.7" Fixtures.exhausted_info eq_refl eq_refl eq_refl
              eq_refl)
    as (e & t & Hd & Ht & ->).
  exists t. split; [exact Hd | exact Ht].
Defined.

(** A chain whose response already carries [X-RateLimit-Limit: 999]:
    the header comes back once, with the value of the limiter. *)
Lemma allowed_requests_get_quota_headers_witness :
  exists response w t,
    @dispatch unit Fixtures.quota_left (Fixtures.orders_request_of "alice")
      (fun _ => ret (set_header "X-RateLimit-Limit" "999"
                       (JSONResponse 200 (JObj [])))) tt
    = (Return response, w, t)
    /\ status_code response = 200
    /\ dict_get "x-ratelimit-limit" (headers response) = Some "3"
    /\ header_lines "x-ratelimit-limit" (headers response) = 1%nat.
Proof.
  destruct (@allowed_requests_get_quota_headers unit Fixtures.quota_left
              (Fixtures.orders_request_of "alice")
              (fun _ => ret (set_header "X-RateLimit-Limit" "999"
                               (JSONResponse 200 (JObj [])))) tt
              (Some "alice") tt tt tt tt [EvVerifyToken "alice"] []
              "10.0.0.7" Fixtures.quota_left_info (VInt 3) (VInt 2)
              "2025-06-03T12:45:44"
              (set_header "X-RateLimit-Limit" "999"
                 (JSONResponse 200 (JObj [])))
              eq_refl eq_refl eq_refl eq_refl eq_refl eq_refl eq_refl
              eq_refl eq_refl)
    as (response & Hd & Hstatus & _ & _ & Hlimit & _ & _ & Hlines & _).
  exists response. eexists _, _. split; [exact Hd|].
  split; [exact Hstatus|]. split; [exact Hlimit | exact Hlines].
Defined.

Lemma chain_exceptions_after_logging_witness :
  exists t,
    @dispatch unit Fixtures.quota_left (Fixtures.orders_request_of "alice")
      Fixtures.failing_next tt = (Raise internal_error, tt, t)
    /\ EvLogRequest "alice" "/orders" "10.0.0.7" ∈ t.
Proof.
  apply (@chain_exceptions_after_logging unit Fixtures.quota_left
           (Fixtures.orders_request_of "alice") Fixtures.failing_next tt
           (Some "alice") tt tt tt tt [EvVerifyToken "alice"] []
           "10.0.0.7" Fixtures.quota_left_info
           (ValueError "invalid literal for int()"));
    reflexivity.
Defined.

(** [GET /health] from 10.0.0.7 with the quota used up goes to the rest
    of the chain. *)
Lemma exempt_paths_are_the_prefix_matches_witness :
  exists r w t,
    @dispatch unit Fixtures.exhausted_quota Fixtures.health_request
      Fixtures.ok_next tt
    = (r, w, EvCallNext Fixtures.health_request :: t).
Proof.
  destruct (@exempt_paths_are_the_prefix_matches unit
              Fixtures.exhausted_quota Fixtures.health_request
              Fixtures.ok_next tt "10.0.0.7" eq_refl)
    as (uid & w1 & t1 & Hget & [Hpass _] & _).
  injection Hget as <- <- <-.
  apply Hpass. exists "". by right; right.
Defined.

End RateLimitingExtra.

(** ** The error handlers, continued *)
Module ErrorHandlingExtra.
Import ErrorHandling.

(** [handle_http_exception] keeps the status and the detail of the
    exception and nothing else: the headers that the exception carries
    (a [Retry-After], a [WWW-Authenticate]) never reach the response. *)
Theorem handle_http_exception_drops_headers :
  forall (W : Type) (request : Request) (status : Z) (detail : json)
         (h1 h2 : option (dict string)) (w : W),
    (exists t,
       handle_http_exception request (HTTPException status detail h1) w
       = (Return {| status_code := status;
                    content := JObj [("detail", detail)];
                    media_type := "application/json";
                    headers := [] |}, w, t))
    /\ handle_http_exception request (HTTPException status detail h1) w
       = handle_http_exception request (HTTPException status detail h2) w.
Proof.
  intros W request status detail h1 h2 w. split; [|reflexivity].
  by eexists.
Qed.

Section LocalDispatch.
Context {W : Type} `{Runtime W}.
Context (_should_notify : string -> Z -> W -> outcome bool * W).
Context (_create_error_notification :
           error_details -> Z -> W -> outcome unit * W).
Context (_get_response_data : error_details -> Z -> outcome json).

#[local] Abbreviation local_dispatch :=
  (handle_database_error_dispatch _should_notify
     _create_error_notification _get_response_data).

(** The function written under [handle_database_error] never raises,
    whatever the chain and its own helpers do, and hands a response of
    the chain back untouched. *)
Theorem handle_database_error_dispatch_never_raises
    (self : ErrorHandlingMiddleware_state unit) (request : Request)
    (call_next : Request -> Py W Response) (w : W) :
  exists response w' t,
    local_dispatch self request call_next w = (Return response, w', t)
    /\ forall r w1 t1,
         call_next request w = (Return r, w1, t1) ->
         response = r /\ w' = w1 /\ t = EvCallNext request :: t1.
Proof.
  destruct (call_next request w) as [[[r|exc] w1] t1] eqn:Hnext.
  - exists r, w1, (EvCallNext request :: t1). split.
    + unfold handle_database_error_dispatch, try_except, invoke, bind, emit.
      by rewrite Hnext.
    + by intros ? ? ? [= <- <- <-].
  - destruct (ErrorHandlingFacts.handle_database_error_dispatch_total
                _should_notify _create_error_notification
                _get_response_data self request call_next w)
      as (response & w' & t & Hd).
    exists response, w', t. split; [exact Hd | discriminate].
Qed.

Lemma or3_classifies (exc : exn) :
  or3 (getattr_status_code exc)
      (status_codes_get (status_codes (@__init__ unit)) (type_name exc))
      (status_codes_get (status_codes (@__init__ unit)) "Exception")
  = Some match exc with
         | HTTPException s _ _ | StarletteHTTPException s _ _ =>
             if s =? 0 then 500 else s
         | AttrException name _ s =>
             if s =? 0
             then default 500
                    (status_codes_get (status_codes (@__init__ unit)) name)
             else s
         | RequestValidationError _ => 422
         | ValueError _ | KeyError _ => 400
         | OtherException name _ =>
             default 500
               (status_codes_get (status_codes (@__init__ unit)) name)
         | _ => 500
         end.
Proof.
  destruct exc as [s d h|s d h| | | | | | | | |name msg s|name msg];
    try reflexivity.
  - unfold or3. simpl. by destruct (s =? 0).
  - unfold or3. simpl. by destruct (s =? 0).
  - unfold or3, status_codes_get. simpl. destruct (s =? 0); [|done].
    simpl. repeat (destruct (String.eqb name _); [reflexivity|]). reflexivity.
  - unfold or3, status_codes_get. simpl.
    repeat (destruct (String.eqb name _); [reflexivity|]). reflexivity.
Qed.

(** When its helpers succeed and the request carries a client address,
    the function answers an exception of the chain with a status chosen
    in this order: the exception's own [status_code] attribute, of
    whatever class the exception is, unless it is 0; else the entry of
    its class in the table of [__init__], 422 for a
    [RequestValidationError], 400 for a [ValueError] or a [KeyError];
    else 500.  The response carries the error id and the class name as
    headers. *)
Theorem handle_database_error_dispatch_classifies
    (request : Request) (call_next : Request -> Py W Response)
    (w w1 : W) (t1 : list event) (exc : exn) (host : string) :
  client request = Some host ->
  call_next request w = (Raise exc, w1, t1) ->
  (forall ty status w2,
     exists b w3, _should_notify ty status w2 = (Return b, w3)) ->
  (forall details status w2,
     exists w3, _create_error_notification details status w2 = (Return tt, w3)) ->
  (forall details status,
     exists body, _get_response_data details status = Return body) ->
  exists response w' t,
    local_dispatch (@__init__ unit) request call_next w
    = (Return response, w', t)
    /\ status_code response
       = match exc with
         | HTTPException s _ _ | StarletteHTTPException s _ _ =>
             if s =? 0 then 500 else s
         | AttrException name _ s =>
             if s =? 0
             then default 500
                    (status_codes_get (status_codes (@__init__ unit)) name)
             else s
         | RequestValidationError _ => 422
         | ValueError _ | KeyError _ => 400
         | OtherException name _ =>
             default 500
               (status_codes_get (status_codes (@__init__ unit)) name)
         | _ => 500
         end
    /\ headers response = [("x-error-id", (uuid4 w1).1);
                           ("x-error-type", type_name exc)].
Proof.
  intros Hclient Hnext Hnotify Hcreate Hdata.
  unfold handle_database_error_dispatch.
  unfold try_except at 1, invoke, bind at 1, emit. rewrite Hnext.
  unfold try_except, bind at 1, _get_error_details.
  destruct (uuid4 w1) as [error_id w2].
  unfold client_host. rewrite Hclient.
  rewrite (or3_classifies exc).
  set (c := match exc with HTTPException _ _ _ => _ | _ => _ end).
  unfold bind at 1, ret at 1. unfold bind at 1, logger_log, emit.
  unfold bind at 1, call at 1. cbn [ed_type].
  destruct (Hnotify (type_name exc) c w2) as (b & w3 & ->).
  unfold bind at 1.
  match goal with
  | |- context [_get_response_data ?d c] =>
      destruct (Hdata d c) as [body Hbody];
      destruct b;
      [destruct (Hcreate d c w3) as [w4 Hcr]; unfold call; rewrite Hcr|
       unfold ret at 1];
      unfold bind, lift_outcome; rewrite Hbody
  end;
  unfold ret; eexists _, _, _; (split; [reflexivity|]); split; reflexivity.
Qed.

End LocalDispatch.

(** An exception of a foreign class that carries [status_code = 503]
    is answered with 503. *)
Lemma handle_database_error_dispatch_classifies_witness :
  exists response w t,
    @handle_database_error_dispatch unit Fixtures.fixed_runtime unit
      (fun _ _ w => (Return false, w)) (fun _ _ w => (Return tt, w))
      (fun d _ => Return (JObj [("error_id", JStr (ed_id d))]))
      __init__ Fixtures.orders_request
      (fun _ => raise (AttrException "UpstreamError" "bad gateway" 503)) tt
    = (Return response, w, t)
    /\ status_code response = 503
    /\ headers response
       = [("x-error-id", "3f2b8c1e-0d4a-4e6f-9a7b-5c1d2e3f4a5b");
          ("x-error-type", "UpstreamError")].
Proof.
  destruct (@handle_database_error_dispatch_classifies unit
              Fixtures.fixed_runtime
              (fun _ _ w => (Return false, w)) (fun _ _ w => (Return tt, w))
              (fun d _ => Return (JObj [("error_id", JStr (ed_id d))]))
              Fixtures.orders_request
              (fun _ => raise (AttrException "UpstreamError" "bad gateway"
                                 503))
              tt tt [] (AttrException "UpstreamError" "bad gateway" 503)
              "10.0.0.7")
    as (response & w & t & Hd & Hstatus & Hheaders).
  - reflexivity.
  - reflexivity.
  - intros. by eexists _, _.
  - intros. by eexists.
  - intros. by eexists.
  - exists response, w, t. split; [exact Hd|]. split; [exact Hstatus|].
    exact Hheaders.
Defined.

(** When the notification check is broken, the same failed [int()] is
    answered with the anonymous 500. *)
Lemma handle_database_error_dispatch_fallback_witness :
  exists w t,
    @handle_database_error_dispatch unit Fixtures.fixed_runtime unit
      (fun _ _ w => (Raise (AttributeError "_should_notify"), w))
      (fun _ _ w => (Return tt, w))
      (fun d _ => Return (JObj [("error_id", JStr (ed_id d))]))
      __init__ Fixtures.orders_request Fixtures.failing_next tt
    = (Return ErrorHandling.fallback_response, w, t)
    /\ has_header "X-Error-ID" ErrorHandling.fallback_response = false.
Proof.
  destruct (@ErrorHandlingFacts.handle_database_error_dispatch_fallback unit
              Fixtures.fixed_runtime
              (fun _ _ w => (Raise (AttributeError "_should_notify"), w))
              (fun _ _ w => (Return tt, w))
              (fun d _ => Return (JObj [("error_id", JStr (ed_id d))]))
              __init__ Fixtures.orders_request Fixtures.failing_next tt tt []
              (ValueError "invalid literal for int()")
              (AttributeError "_should_notify"))
    as (w & t & Hd & Hid & _).
  - reflexivity.
  - reflexivity.
  - intros. by eexists.
  - exists w, t. split; [exact Hd | exact Hid].
Defined.

End ErrorHandlingExtra.

(** ** The database service, continued *)
Module DatabaseExtra.
Import Database.

Section Facts.
Context {W Conn : Type} `{Redis W Conn}.

(** The [redis] property of a new service is [None] exactly when the
    client could not be built or its first ping failed; otherwise it is
    the client that was built. *)
Theorem redis_is_None_iff_startup_failed (w : W) :
  exists self w' t,
    __init__ w = (Return self, w', t)
    /\ (redis self = None <-> startup_fails w)
    /\ forall conn w1,
         redis_Redis w = (Return conn, w1) ->
         ~ startup_fails w -> redis self = Some conn.
Proof.
  unfold __init__, _init_redis, startup_fails, redis.
  unfold try_except, bind, call, ret, logger_log, emit.
  destruct (redis_Redis w) as [[conn|e] w1].
  - destruct (redis_ping conn w1) as [[b|e] w2].
    + eexists _, _, _. split; [reflexivity|]. simpl. split; [done|].
      by intros ? ? [= <- <-] _.
    + destruct e; eexists _, _, _; (split; [reflexivity|]); simpl;
        (split; [done|]); by intros ? ? _ [].
  - destruct e; eexists _, _, _; (split; [reflexivity|]); simpl;
      (split; [done|]); by intros ? ? _ [].
Qed.

(** [is_redis_available] pings once when there is a connection and
    answers [True] exactly when that ping does not raise, whatever the
    ping returns; without a connection it answers [False] and does not
    ping. *)
Theorem is_redis_available_reflects_the_ping
    (self : DatabaseService Conn) (w : W) :
  is_redis_available self w
  = match _redis self with
    | None => (Return false, w, [])
    | Some conn =>
        (Return (returns (redis_ping conn w).1), (redis_ping conn w).2,
         [EvRedisPing])
    end.
Proof.
  unfold is_redis_available. destruct (_redis self) as [conn|]; [|done].
  unfold try_except, bind, call, ret.
  by destruct (redis_ping conn w) as [[b|e] w1].
Qed.

End Facts.

(** A server that answers the first ping and refuses the second: the
    service holds its connection and then reports the store as gone. *)
Lemma redis_is_None_iff_startup_failed_witness :
  exists self,
    (@__init__ _ _ Fixtures.scripted_redis [true; false]).1.1 = Return self
    /\ redis self = Some tt
    /\ (@is_redis_available _ _ Fixtures.scripted_redis self [false]).1.1
       = Return false.
Proof.
  destruct (@redis_is_None_iff_startup_failed _ _ Fixtures.scripted_redis
              [true; false]) as (self & w' & t & Hinit & _ & Hsome).
  exists self. rewrite Hinit. split; [reflexivity|].
  assert (redis self = Some tt) as Hredis.
  { apply (Hsome tt [true; false]); [reflexivity | intros []]. }
  split; [exact Hredis|].
  destruct self as [connection]. simpl in Hredis. by rewrite Hredis.
Defined.

End DatabaseExtra.

(** ** Setting up the middleware, continued *)
Module PipelineExtra.
Import Pipeline.

(** On an application that has not started, [setup_middleware] puts its
    nine classes, the last registered first, in front of whatever was
    registered before and raises nothing: calling it again stacks all
    nine a second time. *)
Theorem setup_middleware_prepends_to_the_stack (app : App) :
  started app = false ->
  exists app' t,
    setup_middleware app = (Return tt, app', t)
    /\ user_middleware app'
       = (rev documented_order ++ user_middleware app)%list
    /\ started app' = false.
Proof.
  destruct app as [registered is_started]. simpl. intros ->.
  eexists _, _. split; [reflexivity|]. split; reflexivity.
Qed.

(** On an application that has started, [setup_middleware] registers
    nothing: the framework's [RuntimeError] is logged and raised again
    as it is. *)
Theorem setup_middleware_after_start_raises (app : App) :
  started app = true ->
  exists message,
    setup_middleware app
    = (Raise (RuntimeError
                "Cannot add middleware after an application has started"),
       app, [EvLog ERROR message]).
Proof.
  destruct app as [registered is_started]. simpl. intros ->.
  eexists. reflexivity.
Qed.

Lemma setup_middleware_prepends_to_the_stack_witness :
  exists app t,
    setup_middleware {| user_middleware := rev documented_order;
                        started := false |} = (Return tt, app, t)
    /\ length (user_middleware app) = 18%nat.
Proof.
  destruct (setup_middleware_prepends_to_the_stack
              {| user_middleware := rev documented_order; started := false |}
              eq_refl) as (app & t & Hsetup & Hstack & _).
  exists app, t. split; [exact Hsetup|]. by rewrite Hstack.
Defined.

Lemma setup_middleware_after_start_raises_witness :
  exists message,
    setup_middleware {| user_middleware := []; started := true |}
    = (Raise (RuntimeError
                "Cannot add middleware after an application has started"),
       {| user_middleware := []; started := true |}, [EvLog ERROR message]).
Proof.
  apply (setup_middleware_after_start_raises
           {| user_middleware := []; started := true |}).
  reflexivity.
Defined.

End PipelineExtra.

(** ** The system routes *)
Module RoutesFacts.
Import Routes.

Section Facts.
Context {W F Info Dict : Type} `{Host W F Info Dict}.

(** A failing reading of [psutil] never leaves [get_system_info]: each
    of the three readings is replaced by its own fallback, exactly when
    it fails and whatever the other two do, and the model class is built
    on the result.  Only [platform.platform()] and the constructor can
    make the function raise. *)
Theorem get_system_info_survives_psutil (w : W) :
  let rm := virtual_memory w in
  let rd := disk_usage "/" rm.2 in
  let rc := psutil_cpu_percent rd.2 in
  let rp := platform_platform rc.2 in
  match rp.1 with
  | Raise e => get_system_info w = (Raise e, rp.2, [])
  | Return plat =>
      exists fields,
        get_system_info w = (SystemInfo fields, rp.2, [])
        /\ python_version fields = sys_version
        /\ platform fields = plat
        /\ timezone fields = "UTC"
        /\ (memory fields = memory_unavailable <-> returns rm.1 = false)
        /\ (disk fields = disk_unavailable <-> returns rd.1 = false)
        /\ (returns rc.1 = false -> cpu_percent fields = zero)
  end.
Proof.
  unfold get_system_info, try_except, bind, host_call, ret, lift_outcome.
  simpl.
  destruct (virtual_memory w) as [[m|em] w1]; simpl;
    destruct (disk_usage "/" w1) as [[d|ed] w2]; simpl;
    destruct (psutil_cpu_percent w2) as [[x|ec] w3]; simpl;
    destruct (platform_platform w3) as [[plat|ep] w4]; simpl;
    try reflexivity;
    (eexists; split; [reflexivity|]); simpl;
    repeat split; try done.
Qed.

(** [GET /system] answers with status ["ok"] or raises the one
    [HTTPException(500, "System status check failed")]: no other
    exception leaves it, and nothing of the error shows in it. *)
Theorem system_status_hides_the_error (w : W) :
  exists r w' t,
    system_status w = (r, w', t)
    /\ match r with
       | Return body => body_status body = "ok" /\ body_user body = "fdygt"
       | Raise e =>
           e = HTTPException 500 (JStr "System status check failed") None
       end.
Proof.
  unfold system_status, try_except, bind, logger_log, emit, raise.
  destruct (get_system_info w) as [[[info|e] w1] t1]; simpl;
    eexists _, _, _; (split; [reflexivity|]); done.
Qed.

End Facts.

(** On a host where every reading of [psutil] fails, the system
    information still comes out, with the two error dictionaries and a
    CPU load of zero. *)
Example bare_host_system_info :
  (@get_system_info _ _ _ _ Fixtures.bare_host tt).1.1
  = Return {| python_version := "3.12.3";
              platform := "Linux-6.8-x86_64";
              timezone := "UTC";
              memory := [("error", StStr "Memory stats unavailable")];
              disk := [("error", StStr "Disk stats unavailable")];
              cpu_percent := 0 |}.
Proof. reflexivity. Qed.

End RoutesFacts.
